(** * Mapbox MCP example scripts: response post-processing, configuration
      and chat handlers

    A shallow embedding of the Python example scripts under [examples/]
    (CrewAI, LangGraph and Pydantic AI front ends of the Mapbox MCP server)
    and the properties their specification states about them.

    Conventions of the embedding:
    - a Python [str] is the list of its code points ([list N]);
    - the standard-library calls the scripts make ([str.strip],
      [str.replace], [re.finditer], [re.search], [json.loads],
      [os.path.join], [os.environ.get]) are modelled by executable
      functions that follow CPython 3.11;
    - a Python function that can raise returns a [result]; a function that
      prints, reads the clock, touches files or calls the agent threads a
      [World];
    - the language model behind [agent.run] is a parameter of the handlers. *)

From Stdlib Require Import String Ascii DecimalString.
From stdpp Require Import base list gmap.

#[local] Set Warnings "-register-all".

Open Scope N_scope.
Open Scope nat_scope.
Open Scope list_scope.

(** ** Python strings *)

Module PyStr.

Definition char := N.
Definition str := list N.

(** A literal of the source, written as a Rocq string of ASCII characters. *)
Fixpoint py (s : string) : str :=
match s with
| EmptyString => []
| String a s' => N_of_ascii a :: py s'
end.

Definition LF : N := 10%N.
Definition DQ : N := 34%N.
Definition BACKTICK : N := 96%N.

(** [int.__str__] for a non-negative integer. *)
Definition str_of_nat (n : nat) : str := py (NilZero.string_of_uint (Nat.to_uint n)).
Definition str_of_N (n : N) : str := py (NilZero.string_of_uint (N.to_uint n)).

(** [str.isspace] on one character, which is also the class [\s] of [re]
    for [str] patterns: the code points CPython lists in
    [_PyUnicode_IsWhitespace]. *)
Definition isspace (c : N) : bool :=
  ((9 <=? c) && (c <=? 13) || (28 <=? c) && (c <=? 32) || (c =? 133) || (c =? 160)
   || (c =? 5760) || (8192 <=? c) && (c <=? 8202) || (c =? 8232) || (c =? 8233)
   || (c =? 8239) || (c =? 8287) || (c =? 12288))%N.

Fixpoint lstrip (s : str) : str :=
match s with
| [] => []
| c :: s' => if isspace c then lstrip s' else s
end.

Definition rstrip (s : str) : str := rev (lstrip (rev s)).

(** [s.strip()] *)
Definition strip (s : str) : str := rstrip (lstrip s).

(** [s.startswith(p)] *)
Fixpoint startswith (p s : str) : bool :=
match p, s with
| [], _ => true
| _ :: _, [] => false
| a :: p', b :: s' => (a =? b)%N && startswith p' s'
end.

(** [s.endswith(p)] *)
Definition endswith (p s : str) : bool := startswith (rev p) (rev s).

(** [sub in s] *)
Fixpoint contains (sub s : str) : bool :=
match s with
| [] => startswith sub []
| _ :: s' => startswith sub s || contains sub s'
end.

(** The scan of [s.replace(old, new)] for a non-empty [old]: occurrences are
    taken left to right and do not overlap; [skip] counts the characters of
    the occurrence just replaced that are still to be passed over. *)
Fixpoint replace_scan (old new s : str) (skip : nat) : str :=
match s with
| [] => []
| c :: s' =>
    match skip with
    | S k => replace_scan old new s' k
    | O =>
        if startswith old s
        then new ++ replace_scan old new s' (length old - 1)
        else c :: replace_scan old new s' 0
    end
end.

(** [s.replace(old, new)]; an empty [old] matches before every character
    and at the end. *)
Definition replace (s old new : str) : str :=
match old with
| [] => new ++ concat (map (fun c => c :: new) s)
| _ :: _ => replace_scan old new s 0
end.

(** [s[i:j]] for [0 <= i], [0 <= j]. *)
Definition slice (s : str) (i j : nat) : str := take (j - i) (drop i s).

(** [s.count(c, 0, n)] for a one-character [c]. *)
Definition count_char (c : N) (s : str) (n : nat) : nat :=
  length (filter (fun x => x = c) (take n s)).

End PyStr.
Export PyStr.

(** ** Exceptions and results *)

Module Exc.

(** The exception classes these scripts meet. [EnvironmentError] is an alias
    of [OSError]; [JSONDecodeError] derives from [ValueError]; the last four
    derive from [BaseException] only. [OtherException] stands for any other
    class derived from [Exception], named by its class name. *)
Inductive exc_class :=
| OSError
| FileNotFoundError
| ValueError
| JSONDecodeError
| ValidationError
| RecursionError
| OtherException (name : str)
| KeyboardInterrupt
| SystemExit
| GeneratorExit
| CancelledError.

Definition EnvironmentError := OSError.

(** An exception object: its class and [str(e)]. *)
Record exn := mk_exn { exc_type : exc_class; exc_str : str }.

(** [isinstance(e, Exception)] *)
Definition is_Exception (c : exc_class) : bool :=
match c with
| KeyboardInterrupt | SystemExit | GeneratorExit | CancelledError => false
| _ => true
end.

(** [isinstance(e, json.JSONDecodeError)] *)
Definition is_JSONDecodeError (c : exc_class) : bool :=
match c with
| JSONDecodeError => true
| _ => false
end.

Inductive result (A : Type) :=
| Return (a : A)
| Raise (e : exn).
Arguments Return {A} a.
Arguments Raise {A} e.

End Exc.
Export Exc.

(** ** Regular expressions ([re])

    A backtracking matcher with the priorities of [re]: a greedy repetition
    tries the longest run first, a lazy one the shortest. The syntax covers
    what the patterns of these scripts use; repetition applies to character
    sets only. *)

Module Re.

Inductive regex :=
| Eps
| Chr (c : N)                 (* a literal character *)
| Cls (p : N -> bool)         (* a character set *)
| Cat (r1 r2 : regex)
| Star (p : N -> bool)        (* [set*] *)
| Plus (p : N -> bool)        (* [set+] *)
| LazyStar (p : N -> bool)    (* [set*?] *)
| Group (r : regex).          (* capturing group 1 *)

(** A literal string. *)
Fixpoint lit (s : str) : regex :=
match s with
| [] => Eps
| c :: s' => Cat (Chr c) (lit s')
end.

(** Span of group 1, when it took part in the match. *)
Definition capture := option (nat * nat).

Definition cont := nat -> str -> capture -> option (nat * capture).

(** Greedy run of characters of [p], longest first. *)
Fixpoint greedy (p : N -> bool) (i : nat) (s : str) (g : capture) (k : cont)
  : option (nat * capture) :=
match s with
| c :: s' =>
    if p c then
      match greedy p (S i) s' g k with
      | Some r => Some r
      | None => k i s g
      end
    else k i s g
| [] => k i s g
end.

(** Lazy run of characters of [p], shortest first. *)
Fixpoint lazy (p : N -> bool) (i : nat) (s : str) (g : capture) (k : cont)
  : option (nat * capture) :=
match k i s g with
| Some r => Some r
| None =>
    match s with
    | c :: s' => if p c then lazy p (S i) s' g k else None
    | [] => None
    end
end.

(** [rmatch r i s g k]: match [r] against [s], the part of the subject that
    starts at index [i], then continue with [k]. *)
Fixpoint rmatch (r : regex) (i : nat) (s : str) (g : capture) (k : cont)
  : option (nat * capture) :=
match r with
| Eps => k i s g
| Chr c =>
    match s with
    | x :: s' => if (x =? c)%N then k (S i) s' g else None
    | [] => None
    end
| Cls p =>
    match s with
    | x :: s' => if p x then k (S i) s' g else None
    | [] => None
    end
| Cat r1 r2 => rmatch r1 i s g (fun i' s' g' => rmatch r2 i' s' g' k)
| Star p => greedy p i s g k
| Plus p =>
    match s with
    | x :: s' => if p x then greedy p (S i) s' g k else None
    | [] => None
    end
| LazyStar p => lazy p i s g k
| Group r1 => rmatch r1 i s g (fun i' s' _ => k i' s' (Some (i, i')))
end.

(** The match of [r] that starts exactly at index [i]: its end and group 1. *)
Definition match_at (r : regex) (i : nat) (s : str) : option (nat * capture) :=
  rmatch r i s None (fun i' _ g => Some (i', g)).

(** A match object: the subject string and the spans. *)
Record Match := mk_Match {
  m_string : str;
  m_start : nat;
  m_end : nat;
  m_group1 : capture
}.

(** [match.group(0)] *)
Definition group0 (m : Match) : str := slice (m_string m) (m_start m) (m_end m).

(** [match.group(1)]; the patterns below always set the group. *)
Definition group1 (m : Match) : str :=
match m_group1 m with
| Some (a, b) => slice (m_string m) a b
| None => []
end.

(** The scan of [re.finditer]: matches are searched left to right and do not
    overlap; [skip] counts the characters of the last match still to be
    passed over. A match of these patterns is never empty; after an empty
    one the scan would move on by one character. *)
Fixpoint finditer_scan (r : regex) (text : str) (i : nat) (s : str) (skip : nat)
  : list Match :=
match skip with
| S k =>
    match s with
    | [] => []
    | _ :: s' => finditer_scan r text (S i) s' k
    end
| O =>
    match match_at r i s with
    | Some (e, g) =>
        mk_Match text i e g ::
        match s with
        | [] => []
        | _ :: s' => finditer_scan r text (S i) s' (e - i - 1)
        end
    | None =>
        match s with
        | [] => []
        | _ :: s' => finditer_scan r text (S i) s' 0
        end
    end
end.

(** [list(re.finditer(r, text))] *)
Definition finditer (r : regex) (text : str) : list Match :=
  finditer_scan r text 0 text 0.

(** [re.search(r, text)] *)
Definition search (r : regex) (text : str) : option Match :=
  head (finditer r text).

End Re.
Export Re.

(** ** JSON documents ([json.loads])

    The decoder of the standard library with its default settings (strict
    strings, [NaN] and [Infinity] accepted), after [_json.c]: values, error
    messages and error positions. Floats are carried as the literal read, not
    evaluated. An integer literal of more than [int_max_str_digits] digits
    makes [int()] raise [ValueError]. CPython's bound on the nesting depth
    is not part of the model: the recursion budget below is larger than any
    nesting a document of that length can have. *)

Module Json.

Inductive json :=
| JNull
| JBool (b : bool)
| JInt (z : Z)
| JFloat (literal : str)
| JStr (s : str)
| JList (l : list json)
| JDict (d : list (str * json)).

(** [isinstance(v, list)] *)
Definition is_list (v : json) : bool :=
match v with
| JList _ => true
| _ => false
end.

(** [sys.int_info.default_max_str_digits] *)
Definition int_max_str_digits : nat := 4300.

(** Outcome of a scanning function: the value with the index and the text
    that follow it, or the way the scan failed. *)
Inductive scan (A : Type) :=
| Scanned (a : A) (i : nat) (rest : str)
| DecodeError (msg : str) (pos : nat)
| IntTooLong (digits : nat)
| OutOfFuel.
Arguments Scanned {A} a i rest.
Arguments DecodeError {A} msg pos.
Arguments IntTooLong {A} digits.
Arguments OutOfFuel {A}.

Definition is_json_ws (c : N) : bool :=
  ((c =? 32) || (c =? 9) || (c =? 10) || (c =? 13))%N.

Fixpoint skip_ws (i : nat) (s : str) : nat * str :=
match s with
| c :: s' => if is_json_ws c then skip_ws (S i) s' else (i, s)
| [] => (i, s)
end.

Definition is_digit (c : N) : bool := ((48 <=? c) && (c <=? 57))%N.

(** The longest prefix of characters of [p], and the rest. *)
Fixpoint span (p : N -> bool) (s : str) : str * str :=
match s with
| c :: s' => if p c then let (a, b) := span p s' in (c :: a, b) else ([], s)
| [] => ([], [])
end.

Definition int_of_digits (ds : str) : Z :=
  fold_left (fun acc d => (10 * acc + Z.of_N (d - 48))%Z) ds 0%Z.

(** [_match_number_unicode]: an optional minus sign, then 0 or a run of
    digits that starts with 1 to 9, then an optional fraction (a dot and at
    least one digit), then an optional exponent (e or E, an optional sign and
    at least one digit). *)
Definition match_number (i : nat) (s : str) : scan json :=
  let (sign, s1) := match s with
                    | 45%N :: s1 => ([45%N], s1)
                    | _ => ([], s)
                    end in
  match s1 with
  | [] => DecodeError (py "Expecting value") i
  | c :: s2 =>
      let int_part :=
        if ((49 <=? c) && (c <=? 57))%N then
          let (ds, s3) := span is_digit s2 in Some (c :: ds, s3)
        else if (c =? 48)%N then Some ([c], s2)
        else None in
      match int_part with
      | None => DecodeError (py "Expecting value") i
      | Some (ds, s3) =>
          let (frac, s4) :=
            match s3 with
            | 46%N :: d :: s3' =>
                if is_digit d then
                  let (fs, s4) := span is_digit s3' in (46%N :: d :: fs, s4)
                else ([], s3)
            | _ => ([], s3)
            end in
          let (exp, s5) :=
            match s4 with
            | e :: s4' =>
                if ((e =? 101) || (e =? 69))%N then
                  let (sg, s4'') := match s4' with
                                    | x :: t => if ((x =? 45) || (x =? 43))%N
                                                then ([x], t) else ([], s4')
                                    | [] => ([], s4')
                                    end in
                  match span is_digit s4'' with
                  | ([], _) => ([], s4)
                  | (es, s5) => (e :: sg ++ es, s5)
                  end
                else ([], s4)
            | [] => ([], s4)
            end in
          let lexeme := sign ++ ds ++ frac ++ exp in
          match frac, exp with
          | [], [] =>
              if int_max_str_digits <? length ds then IntTooLong (length ds)
              else Scanned (JInt (match sign with
                                  | [] => int_of_digits ds
                                  | _ => - int_of_digits ds
                                  end)%Z)
                           (i + length lexeme) s5
          | _, _ => Scanned (JFloat lexeme) (i + length lexeme) s5
          end
      end
  end.

Definition hex_digit (c : N) : option N :=
  if ((48 <=? c) && (c <=? 57))%N then Some (c - 48)%N
  else if ((97 <=? c) && (c <=? 102))%N then Some (c - 87)%N
  else if ((65 <=? c) && (c <=? 70))%N then Some (c - 55)%N
  else None.

(** The four hexadecimal digits of a [\uXXXX] escape. *)
Definition hex4 (s : str) : option N :=
match s with
| a :: b :: c :: d :: _ =>
    match hex_digit a, hex_digit b, hex_digit c, hex_digit d with
    | Some x, Some y, Some z, Some w => Some (((x * 16 + y) * 16 + z) * 16 + w)%N
    | _, _, _, _ => None
    end
| _ => None
end.

Definition unescape (c : N) : option N :=
  if (c =? 34)%N then Some 34%N          (* quotation mark *)
  else if (c =? 92)%N then Some 92%N     (* backslash *)
  else if (c =? 47)%N then Some 47%N     (* slash *)
  else if (c =? 98)%N then Some 8%N      (* backspace *)
  else if (c =? 102)%N then Some 12%N    (* form feed *)
  else if (c =? 110)%N then Some 10%N    (* line feed *)
  else if (c =? 114)%N then Some 13%N    (* carriage return *)
  else if (c =? 116)%N then Some 9%N     (* tab *)
  else None.

Definition is_high_surrogate (u : N) : bool := ((55296 <=? u) && (u <=? 56319))%N.
Definition is_low_surrogate (u : N) : bool := ((56320 <=? u) && (u <=? 57343))%N.
Definition join_surrogates (hi lo : N) : N :=
  (65536 + ((hi - 55296) * 1024 + (lo - 56320)))%N.

(** [scanstring_unicode] in strict mode; [begin] is the index of the opening
    quote, [i] the index of the first character of [s], [acc] the characters
    decoded so far, last first. *)
Fixpoint scanstring (fuel : nat) (begin i : nat) (s : str) (acc : str) : scan str :=
match fuel with
| O => OutOfFuel
| S f =>
    match s with
    | [] => DecodeError (py "Unterminated string starting at") begin
    | c :: s1 =>
        if (c =? 34)%N then Scanned (rev acc) (S i) s1
        else if (c =? 92)%N then
          match s1 with
          | [] => DecodeError (py "Unterminated string starting at") begin
          | e :: s2 =>
              if (e =? 117)%N then
                match hex4 s2 with
                | None => DecodeError (py "Invalid \uXXXX escape") (i + 1)
                | Some u =>
                    let s3 := drop 4 s2 in
                    if is_high_surrogate u && (6 <=? length s3) && startswith [92%N; 117%N] s3
                    then
                      match hex4 (drop 2 s3) with
                      | None => DecodeError (py "Invalid \uXXXX escape") (i + 7)
                      | Some u2 =>
                          if is_low_surrogate u2
                          then scanstring f begin (i + 12) (drop 6 s3)
                                          (join_surrogates u u2 :: acc)
                          else scanstring f begin (i + 6) s3 (u :: acc)
                      end
                    else scanstring f begin (i + 6) s3 (u :: acc)
                end
              else
                match unescape e with
                | Some x => scanstring f begin (i + 2) s2 (x :: acc)
                | None => DecodeError (py "Invalid \escape") i
                end
          end
        else if (c <=? 31)%N then DecodeError (py "Invalid control character at") i
        else scanstring f begin (S i) s1 (c :: acc)
    end
end.

(** [d[key] = v] on a dict kept in insertion order. *)
Fixpoint dict_set (d : list (str * json)) (key : str) (v : json) : list (str * json) :=
match d with
| [] => [(key, v)]
| (k, x) :: d' => if bool_decide (k = key) then (k, v) :: d' else (k, x) :: dict_set d' key v
end.

Definition scan_bind {A B : Type} (x : scan A) (k : A -> nat -> str -> scan B) : scan B :=
match x with
| Scanned a i rest => k a i rest
| DecodeError msg pos => DecodeError msg pos
| IntTooLong n => IntTooLong n
| OutOfFuel => OutOfFuel
end.

(** [scan_once_unicode] with [_parse_array_unicode] and
    [_parse_object_unicode]; the two loops take the items read so far. *)
Fixpoint scan_once (fuel : nat) (i : nat) (s : str) : scan json :=
match fuel with
| O => OutOfFuel
| S f =>
    match s with
    | [] => DecodeError (py "Expecting value") i
    | c :: s1 =>
        if (c =? 34)%N then
          scan_bind (scanstring (S (length s1)) i (S i) s1 [])
                    (fun v j rest => Scanned (JStr v) j rest)
        else if (c =? 123)%N then
          let (i1, s2) := skip_ws (S i) s1 in
          match s2 with
          | 125%N :: s3 => Scanned (JDict []) (S i1) s3
          | _ => object_items f i1 s2 []
          end
        else if (c =? 91)%N then
          let (i1, s2) := skip_ws (S i) s1 in
          match s2 with
          | 93%N :: s3 => Scanned (JList []) (S i1) s3
          | _ => array_items f i1 s2 []
          end
        else if startswith (py "null") s then Scanned JNull (i + 4) (drop 4 s)
        else if startswith (py "true") s then Scanned (JBool true) (i + 4) (drop 4 s)
        else if startswith (py "false") s then Scanned (JBool false) (i + 5) (drop 5 s)
        else if startswith (py "NaN") s then Scanned (JFloat (py "NaN")) (i + 3) (drop 3 s)
        else if startswith (py "Infinity") s
        then Scanned (JFloat (py "Infinity")) (i + 8) (drop 8 s)
        else if startswith (py "-Infinity") s
        then Scanned (JFloat (py "-Infinity")) (i + 9) (drop 9 s)
        else match_number i s
    end
end
with array_items (fuel : nat) (i : nat) (s : str) (acc : list json) : scan json :=
match fuel with
| O => OutOfFuel
| S f =>
    scan_bind (scan_once f i s) (fun v i2 s2 =>
      let (i3, s3) := skip_ws i2 s2 in
      match s3 with
      | 93%N :: s4 => Scanned (JList (rev (v :: acc))) (S i3) s4
      | 44%N :: s4 =>
          let (i5, s5) := skip_ws (S i3) s4 in array_items f i5 s5 (v :: acc)
      | _ => DecodeError (py "Expecting ',' delimiter") i3
      end)
end
with object_items (fuel : nat) (i : nat) (s : str) (acc : list (str * json)) : scan json :=
match fuel with
| O => OutOfFuel
| S f =>
    match s with
    | 34%N :: s1 =>
        scan_bind (scanstring (S (length s1)) i (S i) s1 []) (fun key i2 s2 =>
          let (i3, s3) := skip_ws i2 s2 in
          match s3 with
          | 58%N :: s4 =>
              let (i5, s5) := skip_ws (S i3) s4 in
              scan_bind (scan_once f i5 s5) (fun v i6 s6 =>
                let (i7, s7) := skip_ws i6 s6 in
                match s7 with
                | 125%N :: s8 => Scanned (JDict (dict_set acc key v)) (S i7) s8
                | 44%N :: s8 =>
                    let (i9, s9) := skip_ws (S i7) s8 in
                    object_items f i9 s9 (dict_set acc key v)
                | _ => DecodeError (py "Expecting ',' delimiter") i7
                end)
          | _ => DecodeError (py "Expecting ':' delimiter") i3
          end)
    | _ => DecodeError (py "Expecting property name enclosed in double quotes") i
    end
end.

(** [str(e)] of a [JSONDecodeError]: message, line, column and offset. *)
Definition decode_error_str (msg doc : str) (pos : nat) : str :=
  let before := take pos doc in
  let lineno := count_char LF doc pos + 1 in
  let colno := length (fst (span (fun c => negb (c =? LF)%N) (rev before))) + 1 in
  msg ++ py ": line " ++ str_of_nat lineno ++ py " column " ++ str_of_nat colno
      ++ py " (char " ++ str_of_nat pos ++ py ")".

Definition int_too_long_str (digits : nat) : str :=
  py "Exceeds the limit (" ++ str_of_nat int_max_str_digits
     ++ py " digits) for integer string conversion: value has " ++ str_of_nat digits
     ++ py " digits; use sys.set_int_max_str_digits() to increase the limit".

(** [json.loads(s)] for a [str] argument. *)
Definition json_loads (s : str) : result json :=
  if startswith [65279%N] s
  then Raise (mk_exn JSONDecodeError
                (decode_error_str (py "Unexpected UTF-8 BOM (decode using utf-8-sig)") s 0))
  else
    let (i, s1) := skip_ws 0 s in
    match scan_once (2 * length s + 2) i s1 with
    | Scanned v i2 s2 =>
        let (i3, s3) := skip_ws i2 s2 in
        match s3 with
        | [] => Return v
        | _ :: _ => Raise (mk_exn JSONDecodeError (decode_error_str (py "Extra data") s i3))
        end
    | DecodeError msg pos => Raise (mk_exn JSONDecodeError (decode_error_str msg s pos))
    | IntTooLong n => Raise (mk_exn ValueError (int_too_long_str n))
    | OutOfFuel => Raise (mk_exn RecursionError (py "maximum recursion depth exceeded"))
    end.

End Json.
Export Json.

(** ** [json.dumps]

    The encoder with its default settings ([ensure_ascii], separators
    [", "] and [": "]). The text written for a float is a parameter: the
    embedding carries floats as literals and does not evaluate them. *)

Module JsonDump.

Section Dumps.

(** [float.__repr__] of the float a literal denotes. *)
Variable float_repr : str -> str.

Definition hex_char (d : N) : N := (if d <? 10 then 48 + d else 87 + d)%N.

(** ['\\u{0:04x}'.format(n)] *)
Definition u_escape (n : N) : str :=
  [92%N; 117%N; hex_char (n / 4096 mod 16); hex_char (n / 256 mod 16);
   hex_char (n / 16 mod 16); hex_char (n mod 16)].

Definition escape_char (c : N) : str :=
  if (c =? 34)%N then [92%N; 34%N]
  else if (c =? 92)%N then [92%N; 92%N]
  else if (c =? 10)%N then [92%N; 110%N]
  else if (c =? 13)%N then [92%N; 114%N]
  else if (c =? 9)%N then [92%N; 116%N]
  else if (c =? 8)%N then [92%N; 98%N]
  else if (c =? 12)%N then [92%N; 102%N]
  else if ((32 <=? c) && (c <=? 126))%N then [c]
  else if (c <? 65536)%N then u_escape c
  else u_escape (55296 + ((c - 65536) / 1024) mod 1024)
       ++ u_escape (56320 + (c - 65536) mod 1024).

(** [encode_basestring_ascii] *)
Definition encode_string (s : str) : str :=
  [34%N] ++ concat (map escape_char s) ++ [34%N].

(** [sep.join(parts)] *)
Fixpoint join (sep : str) (parts : list str) : str :=
match parts with
| [] => []
| [p] => p
| p :: ps => p ++ sep ++ join sep ps
end.

Definition str_of_Z (z : Z) : str :=
match z with
| Z0 => py "0"
| Zpos p => str_of_nat (Pos.to_nat p)
| Zneg p => 45%N :: str_of_nat (Pos.to_nat p)
end.

Fixpoint dumps (v : json) : str :=
match v with
| JNull => py "null"
| JBool true => py "true"
| JBool false => py "false"
| JInt z => str_of_Z z
| JFloat l => float_repr l
| JStr s => encode_string s
| JList l => py "[" ++ join (py ", ") (map dumps l) ++ py "]"
| JDict d =>
    py "{" ++ join (py ", ") (map (fun kv => encode_string (fst kv) ++ py ": " ++ dumps (snd kv)) d)
       ++ py "}"
end.

(** [json.dumps(l)] for a Python list [l]. *)
Definition json_dumps (l : list json) : str := dumps (JList l).

End Dumps.

End JsonDump.
Export JsonDump.

(** ** The world the scripts run in *)

Module Runtime.

(** One entry of the chat history in Gradio's message format. *)
Record chat_message := mk_chat_message { role : str; content : str }.

Record World := mk_World {
  environ : gmap str str;              (* [os.environ], after [load_dotenv()] *)
  stdout : list str;                   (* what [print] wrote, oldest first *)
  files : gmap str str;                (* text files by path *)
  time_ms : N;                         (* [int(time.time() * 1000)] *)
  agent_calls : list str;              (* prompts sent to the agent, oldest first *)
  chatbot : list chat_message          (* the list object behind the chat panel *)
}.

(** A computation that may raise and acts on the world. *)
Definition Py (A : Type) : Type := World -> result A * World.

Definition ret {A : Type} (a : A) : Py A := fun w => (Return a, w).

Definition raise {A : Type} (e : exn) : Py A := fun w => (Raise e, w).

Definition bind {A B : Type} (c : Py A) (k : A -> Py B) : Py B :=
  fun w =>
    match c w with
    | (Return a, w') => k a w'
    | (Raise e, w') => (Raise e, w')
    end.

(** A pure call that may raise. *)
Definition lift {A : Type} (r : result A) : Py A := fun w => (r, w).

(** [try: body  except C as e: handler(e)], where [catches] tells the
    instances of [C]; what [body] did before it raised stays done. *)
Definition try_except {A : Type} (body : Py A) (catches : exc_class -> bool)
  (handler : exn -> Py A) : Py A :=
  fun w =>
    match body w with
    | (Return a, w') => (Return a, w')
    | (Raise e, w') => if catches (exc_type e) then handler e w' else (Raise e, w')
    end.

(** [for x in xs: st = body(st, x)] *)
Fixpoint for_each {A S : Type} (xs : list A) (body : S -> A -> Py S) (st : S) : Py S :=
match xs with
| [] => ret st
| x :: xs' => bind (body st x) (for_each xs' body)
end.

(** [print(line)] *)
Definition print (line : str) : Py unit :=
  fun w => (Return tt,
            mk_World (environ w) (stdout w ++ [line]) (files w) (time_ms w)
                     (agent_calls w) (chatbot w)).

(** [os.environ.get(name)] *)
Definition environ_get (env : gmap str str) (name : str) : option str := env !! name.

(** [os.environ.get(name, default)] *)
Definition environ_get_default (env : gmap str str) (name dflt : str) : str :=
  match env !! name with
  | Some v => v
  | None => dflt
  end.

End Runtime.
Export Runtime.

(** ** Tool-server configuration

    Every script has one function that reads [MAPBOX_ACCESS_TOKEN] and
    describes the subprocess of the tool server: [get_mapbox_mcp_config]
    (CrewAI), [get_mcp_config] (LangGraph), [get_mcp_server] (Pydantic AI).
    [script_dir] is [os.path.dirname(os.path.abspath(__file__))]. *)

Module Config.

(** [posixpath.join(a, *p)] *)
Definition os_path_join (a : str) (p : list str) : str :=
  fold_left (fun path b =>
               if startswith [47%N] b then b
               else if bool_decide (path = []) || endswith [47%N] path then path ++ b
               else path ++ [47%N] ++ b) p a.

(** The [MCPServerStdio] object of [crewai.mcp] and of [pydantic_ai.mcp];
    only the latter is given a timeout. *)
Record MCPServerStdio := mk_MCPServerStdio {
  command : str;
  args : list str;
  env : gmap str str;
  timeout : option nat
}.

(** One server entry of the dictionary [MultiServerMCPClient] takes. *)
Record server_entry := mk_server_entry {
  se_transport : str;
  se_command : str;
  se_args : list str;
  se_env : gmap str str
}.

Inductive server_config :=
| ServerStdio (s : MCPServerStdio)
| ServerDict (d : gmap str server_entry).

(** The environment of every subprocess a configuration describes. *)
Definition subprocess_envs (c : server_config) : list (gmap str str) :=
match c with
| ServerStdio s => [env s]
| ServerDict d => map (fun kv => se_env (snd kv)) (map_to_list d)
end.

Definition MAPBOX_ACCESS_TOKEN : str := py "MAPBOX_ACCESS_TOKEN".

Definition token_required : exn :=
  mk_exn EnvironmentError
    (py "MAPBOX_ACCESS_TOKEN environment variable is required. "
     ++ py "Get your token at https://account.mapbox.com/").

Definition unknown_connection_type (connection_type : str) : exn :=
  mk_exn ValueError (py "Unknown connection type: " ++ connection_type).

(** [if not mapbox_token]: the variable is unset or empty. *)
Definition falsy (v : option str) : bool :=
match v with
| None => true
| Some [] => true
| Some (_ :: _) => false
end.

Definition index_js (script_dir : str) : str :=
  os_path_join script_dir [py ".."; py ".."; py "dist"; py "esm"; py "index.js"].

(** [crewai/crewai_example.py] *)
Module crewai_example.
Definition get_mapbox_mcp_config (environ : gmap str str) (script_dir connection_type : str)
  : result server_config :=
  let mapbox_token := environ_get environ MAPBOX_ACCESS_TOKEN in
  if falsy mapbox_token then Raise token_required
  else
    let env := {[ MAPBOX_ACCESS_TOKEN := default [] mapbox_token ]} in
    if bool_decide (connection_type = py "node") then
      Return (ServerStdio (mk_MCPServerStdio (py "node") [index_js script_dir] env None))
    else if bool_decide (connection_type = py "npx") then
      Return (ServerStdio (mk_MCPServerStdio (py "npx") [py "-y"; py "@mapbox/mcp-server"] env None))
    else Raise (unknown_connection_type connection_type).
End crewai_example.

(** [crewai/warsaw_example.py], [crewai/warsaw_gradio.py] and
    [crewai/warsaw_gradio_blocks.py] (the same function in each) *)
Module crewai_warsaw.
Definition get_mapbox_mcp_config (environ : gmap str str) (script_dir : str)
  : result server_config :=
  let mapbox_token := environ_get environ MAPBOX_ACCESS_TOKEN in
  if falsy mapbox_token then Raise token_required
  else
    Return (ServerStdio (mk_MCPServerStdio (py "node") [index_js script_dir]
                           {[ MAPBOX_ACCESS_TOKEN := default [] mapbox_token ]} None)).
End crewai_warsaw.

(** [langgraph/langgraph_example.py] *)
Module langgraph_example.
Definition get_mcp_config (environ : gmap str str) (script_dir connection_type : str)
  : result server_config :=
  let mapbox_token := environ_get environ MAPBOX_ACCESS_TOKEN in
  if falsy mapbox_token then Raise token_required
  else
    let env := {[ MAPBOX_ACCESS_TOKEN := default [] mapbox_token ]} in
    if bool_decide (connection_type = py "node") then
      Return (ServerDict {[ py "mapbox" :=
                mk_server_entry (py "stdio") (py "node") [index_js script_dir] env ]})
    else if bool_decide (connection_type = py "npx") then
      Return (ServerDict {[ py "mapbox" :=
                mk_server_entry (py "stdio") (py "npx") [py "-y"; py "@mapbox/mcp-server"] env ]})
    else Raise (unknown_connection_type connection_type).
End langgraph_example.

(** [langgraph/warsaw_example.py], [langgraph/warsaw_gradio.py] and
    [langgraph/warsaw_gradio_blocks.py] *)
Module langgraph_warsaw.
Definition get_mcp_config (environ : gmap str str) (script_dir : str) : result server_config :=
  let mapbox_token := environ_get environ MAPBOX_ACCESS_TOKEN in
  if falsy mapbox_token then Raise token_required
  else
    Return (ServerDict {[ py "mapbox" :=
              mk_server_entry (py "stdio") (py "node") [index_js script_dir]
                {[ MAPBOX_ACCESS_TOKEN := default [] mapbox_token ]} ]}).
End langgraph_warsaw.

(** [pydantic-ai/pydantic_ai_example.py] *)
Module pydantic_ai_example.
Definition get_mcp_server (environ : gmap str str) (script_dir connection_type : str)
  : result server_config :=
  let mapbox_token := environ_get environ MAPBOX_ACCESS_TOKEN in
  if falsy mapbox_token then Raise token_required
  else
    let env := {[ MAPBOX_ACCESS_TOKEN := default [] mapbox_token ]} in
    if bool_decide (connection_type = py "node") then
      Return (ServerStdio (mk_MCPServerStdio (py "node") [index_js script_dir] env (Some 30)))
    else if bool_decide (connection_type = py "npx") then
      Return (ServerStdio (mk_MCPServerStdio (py "npx") [py "-y"; py "@mapbox/mcp-server"] env
                             (Some 30)))
    else Raise (unknown_connection_type connection_type).
End pydantic_ai_example.

(** [pydantic-ai/warsaw_example.py], [pydantic-ai/warsaw_gradio.py],
    [pydantic-ai/warsaw_gradio_blocks.py] and
    [pydantic-ai/warsaw_gradio_blocks_interactive.py] *)
Module pydantic_ai_warsaw.
Definition get_mcp_server (environ : gmap str str) (script_dir : str) : result server_config :=
  let mapbox_token := environ_get environ MAPBOX_ACCESS_TOKEN in
  if falsy mapbox_token then Raise token_required
  else
    Return (ServerStdio (mk_MCPServerStdio (py "node") [index_js script_dir]
                           {[ MAPBOX_ACCESS_TOKEN := default [] mapbox_token ]} (Some 30))).
End pydantic_ai_warsaw.

(** The thirteen scripts and the configuration function of each; a script
    whose function takes no connection type ignores the argument. *)
Inductive script :=
| crewai_crewai_example | crewai_warsaw_example | crewai_warsaw_gradio
| crewai_warsaw_gradio_blocks
| langgraph_langgraph_example | langgraph_warsaw_example | langgraph_warsaw_gradio
| langgraph_warsaw_gradio_blocks
| pydantic_ai_pydantic_ai_example | pydantic_ai_warsaw_example | pydantic_ai_warsaw_gradio
| pydantic_ai_warsaw_gradio_blocks | pydantic_ai_warsaw_gradio_blocks_interactive.

Definition takes_connection_type (s : script) : bool :=
match s with
| crewai_crewai_example | langgraph_langgraph_example | pydantic_ai_pydantic_ai_example => true
| _ => false
end.

Definition tool_server_config (s : script) (environ : gmap str str)
  (script_dir connection_type : str) : result server_config :=
match s with
| crewai_crewai_example =>
    crewai_example.get_mapbox_mcp_config environ script_dir connection_type
| crewai_warsaw_example | crewai_warsaw_gradio | crewai_warsaw_gradio_blocks =>
    crewai_warsaw.get_mapbox_mcp_config environ script_dir
| langgraph_langgraph_example =>
    langgraph_example.get_mcp_config environ script_dir connection_type
| langgraph_warsaw_example | langgraph_warsaw_gradio | langgraph_warsaw_gradio_blocks =>
    langgraph_warsaw.get_mcp_config environ script_dir
| pydantic_ai_pydantic_ai_example =>
    pydantic_ai_example.get_mcp_server environ script_dir connection_type
| pydantic_ai_warsaw_example | pydantic_ai_warsaw_gradio | pydantic_ai_warsaw_gradio_blocks
| pydantic_ai_warsaw_gradio_blocks_interactive =>
    pydantic_ai_warsaw.get_mcp_server environ script_dir
end.

End Config.
Export Config.

(** ** The [Location] model

    [Location] is a pydantic [BaseModel]. Building an instance validates the
    keyword arguments against the declared fields: a field with no default is
    required, an absent field with a default takes it, an argument of the
    wrong type is an error, and all errors are reported together. Floats are
    carried as literals; pydantic's conversions between types are not
    modelled. *)

Module Pydantic.

Inductive value :=
| VNone
| VStr (s : str)
| VFloat (literal : str).

Inductive annotation :=
| TStr                (* [str] *)
| TFloat              (* [float] *)
| TOptionalStr.       (* [Optional[str]], [str | None] *)

(** A declared field; [f_default = None] when the declaration gives no
    default. *)
Record field := mk_field {
  f_name : str;
  f_annotation : annotation;
  f_default : option value
}.

Inductive error_type :=
| missing             (* Field required *)
| wrong_type.         (* Input should be a valid string, number, ... *)

(** The outcome of a call of the class with keyword arguments: the attributes of the instance, or the
    [ValidationError] with the field and kind of every error. *)
Inductive validation (A : Type) :=
| Valid (a : A)
| Invalid (errors : list (str * error_type)).
Arguments Valid {A} a.
Arguments Invalid {A} errors.

Definition conforms (a : annotation) (v : value) : bool :=
match a, v with
| TStr, VStr _ => true
| TFloat, VFloat _ => true
| TOptionalStr, VStr _ => true
| TOptionalStr, VNone => true
| _, _ => false
end.

(** Validation of one field: its value or its error. *)
Definition validate_field (kwargs : gmap str value) (f : field) : value + (str * error_type) :=
match kwargs !! f_name f with
| Some v => if conforms (f_annotation f) v then inl v else inr (f_name f, wrong_type)
| None =>
    match f_default f with
    | Some d => inl d
    | None => inr (f_name f, missing)
    end
end.

(** Validation of all fields, in declaration order. *)
Fixpoint validate_fields (kwargs : gmap str value) (fs : list field)
  : list value * list (str * error_type) :=
match fs with
| [] => ([], [])
| f :: fs' =>
    let (vs, es) := validate_fields kwargs fs' in
    match validate_field kwargs f with
    | inl v => (v :: vs, es)
    | inr e => (vs, e :: es)
    end
end.

Record Location := mk_Location {
  name : str;
  latitude : str;
  longitude : str;
  address : option str;
  country : option str;
  description : option str
}.

Definition optional_str (v : value) : option str :=
match v with
| VStr s => Some s
| _ => None
end.

(** A call of [Location] with keyword arguments, for a class with the given field declarations. *)
Definition construct (fields : list field) (kwargs : gmap str value) : validation Location :=
match validate_fields kwargs fields with
| (values, []) =>
    match values with
    | [VStr n; VFloat la; VFloat lo; a; c; d] =>
        Valid (mk_Location n la lo (optional_str a) (optional_str c) (optional_str d))
    | _ => Invalid []
    end
| (_, errors) => Invalid errors
end.

(** [crewai/crewai_example.py] and [langgraph/langgraph_example.py]:
    [name: str = Field(description=...)], ...,
    [address: Optional[str] = Field(default=None, description=...)], ... *)
Module with_Field.
Definition Location_fields : list field :=
  [ mk_field (py "name") TStr None;
    mk_field (py "latitude") TFloat None;
    mk_field (py "longitude") TFloat None;
    mk_field (py "address") TOptionalStr (Some VNone);
    mk_field (py "country") TOptionalStr (Some VNone);
    mk_field (py "description") TOptionalStr (Some VNone) ].
Definition Location (kwargs : gmap str value) : validation Location :=
  construct Location_fields kwargs.
End with_Field.

(** [pydantic-ai/pydantic_ai_example.py]:
    [name: str], ..., [address: str | None = None], ... *)
Module plain.
Definition Location_fields : list field :=
  [ mk_field (py "name") TStr None;
    mk_field (py "latitude") TFloat None;
    mk_field (py "longitude") TFloat None;
    mk_field (py "address") TOptionalStr (Some VNone);
    mk_field (py "country") TOptionalStr (Some VNone);
    mk_field (py "description") TOptionalStr (Some VNone) ].
Definition Location (kwargs : gmap str value) : validation Location :=
  construct Location_fields kwargs.
End plain.

End Pydantic.
Export Pydantic.

(** ** [pydantic-ai/warsaw_gradio_blocks_interactive.py] *)

Module Interactive.

(** The pattern of [extract_map_commands]: three backticks and the label,
    [\s*], a line feed, group 1 [[\s\S]*?], a line feed, three backticks. *)
Definition map_commands_pattern : regex :=
  Cat (lit (py "```MAP_COMMANDS"))
   (Cat (Star isspace)
    (Cat (Chr LF)
     (Cat (Group (LazyStar (fun c => isspace c || negb (isspace c))))
      (Cat (Chr LF) (lit (py "```")))))).

(** [map_commands.extend(commands)] when [commands] is a list *)
Definition extend (map_commands : list json) (commands : json) : list json :=
match commands with
| JList l => map_commands ++ l
| _ => map_commands
end.

(** The body of the loop over the matches, on the pair of [map_commands]
    and [clean_text]. *)
Definition extract_block (st : list json * str) (m : Match) : Py (list json * str) :=
  let (map_commands, clean_text) := st in
  try_except
    (bind (lift (json_loads (group1 m))) (fun commands =>
       let map_commands := if is_list commands then extend map_commands commands
                           else map_commands in
       (* Remove the command block from text *)
       let clean_text := strip (replace clean_text (group0 m) []) in
       ret (map_commands, clean_text)))
    is_JSONDecodeError
    (fun e =>
       bind (print (py "Failed to parse map commands: " ++ exc_str e)) (fun _ =>
       ret (map_commands, clean_text))).

Definition extract_map_commands (text : str) : Py (str * list json) :=
  let matches := finditer map_commands_pattern text in
  match matches with
  | [] => ret (text, [])
  | _ :: _ =>
      bind (for_each matches extract_block ([], text)) (fun st =>
      ret (snd st, fst st))
  end.

Section Handlers.

(** [agent.run(message)] and its [.output]: the reply of the model, or the
    exception the call raises, given the prompts sent before. *)
Variable agent_run : list str -> str -> result str.

(** [float.__repr__], for [json.dumps]. *)
Variable float_repr : str -> str.

(** The directory of the script and the port of the local map server. *)
Variable script_dir : str.
Variable map_port : N.

Definition await_agent_run (message : str) : Py str :=
  fun w =>
    (agent_run (agent_calls w) message,
     mk_World (environ w) (stdout w) (files w) (time_ms w)
              (agent_calls w ++ [message]) (chatbot w)).

Definition chat_with_map_control (message : str) (history : list chat_message)
  : Py (str * str) :=
  try_except
    (bind (await_agent_run message) (fun text_response =>
     bind (extract_map_commands text_response) (fun r =>
     let (clean_text, map_commands) := r in
     ret (clean_text,
          match map_commands with
          | [] => []
          | _ :: _ => json_dumps float_repr map_commands
          end))))
    is_Exception
    (fun e => ret (py "Sorry, I encountered an error: " ++ exc_str e, [])).

Definition chat_wrapper (message : str) (history : list chat_message) : Py (str * str) :=
  chat_with_map_control message history.

(** [open(path, 'r').read()] *)
Definition read_file (path : str) : Py str :=
  fun w =>
    match files w !! path with
    | Some text => (Return text, w)
    | None =>
        (Raise (mk_exn FileNotFoundError
                  (py "[Errno 2] No such file or directory: '" ++ path ++ py "'")), w)
    end.

(** [open(path, 'w').write(text)] *)
Definition write_file (path text : str) : Py unit :=
  fun w =>
    (Return tt,
     mk_World (environ w) (stdout w) (<[path := text]> (files w)) (time_ms w)
              (agent_calls w) (chatbot w)).

Definition MAPBOX_PUBLIC_TOKEN : str := py "MAPBOX_PUBLIC_TOKEN".

Definition commands_script (commands_json : str) : str :=
  [LF] ++ py "        <script>" ++ [LF]
  ++ py "        window.addEventListener('load', function() {" ++ [LF]
  ++ py "            setTimeout(function() {" ++ [LF]
  ++ py "                const commands = " ++ commands_json ++ py ";" ++ [LF]
  ++ py "                if (window.handleMapCommands) {" ++ [LF]
  ++ py "                    window.handleMapCommands(JSON.stringify(commands));" ++ [LF]
  ++ py "                }" ++ [LF]
  ++ py "            }, 800);" ++ [LF]
  ++ py "        });" ++ [LF]
  ++ py "        </script>" ++ [LF]
  ++ py "        </body>" ++ [LF]
  ++ py "        ".

Definition iframe_attributes : str :=
  [DQ] ++ py " width=" ++ [DQ] ++ py "100%" ++ [DQ] ++ py " height=" ++ [DQ] ++ py "600px"
  ++ [DQ] ++ py " frameborder=" ++ [DQ] ++ py "0" ++ [DQ] ++ py " style=" ++ [DQ]
  ++ py "border:0;" ++ [DQ] ++ py "></iframe>".

Definition create_map_with_commands (commands_json : str) (port : N) : Py str :=
  let template_path := os_path_join script_dir [py "map_template.html"] in
  bind (read_file template_path) (fun template =>
  fun w =>
    let mapbox_public_token := environ_get_default (environ w) MAPBOX_PUBLIC_TOKEN [] in
    let map_html_content := replace template (py "__MAPBOX_TOKEN__") mapbox_public_token in
    let map_html_content :=
      if negb (bool_decide (commands_json = [])) && negb (bool_decide (commands_json = []))
         && negb (bool_decide (commands_json = py "[]"))
      then replace map_html_content (py "</body>") (commands_script commands_json)
      else map_html_content in
    let unique_id := time_ms w in
    let map_file_path :=
      os_path_join script_dir [py "map_interactive_" ++ str_of_N unique_id ++ py ".html"] in
    bind (write_file map_file_path map_html_content) (fun _ =>
    ret (py "<iframe src=" ++ [DQ] ++ py "http://127.0.0.1:" ++ str_of_N port
         ++ py "/map_interactive_" ++ str_of_N unique_id ++ py ".html" ++ iframe_attributes)) w).


(** The iframe shown before any command: [map_html]. *)
Definition map_html : str :=
  py "<iframe id=" ++ [DQ] ++ py "mapIframe" ++ [DQ] ++ py " src=" ++ [DQ]
  ++ py "http://127.0.0.1:" ++ str_of_N map_port ++ py "/map_interactive.html"
  ++ iframe_attributes.


(** [chat_history.append(message)]: the list object is changed in place. *)
Definition chat_history_append (m : chat_message) : Py unit :=
  fun w =>
    (Return tt,
     mk_World (environ w) (stdout w) (files w) (time_ms w) (agent_calls w) (chatbot w ++ [m])).

(** [respond(message, chat_history)], where [chat_history] is the list
    object of the chat panel; the result is the new textbox value, the chat
    history and the map HTML. *)
Definition respond (message : str) : Py (str * list chat_message * str) :=
  fun w =>
    if bool_decide (strip message = []) then (Return ([], chatbot w, map_html), w)
    else
      bind (print ([LF] ++ [128309%N] ++ py " User message: " ++ message)) (fun _ =>
      (* Get response and map commands *)
      bind (chat_wrapper message (chatbot w)) (fun r =>
      let (text, commands) := r in
      bind (print ([128309%N] ++ py " Agent response: " ++ take 100 text ++ py "...")) (fun _ =>
      bind (print ([128309%N] ++ py " Map commands: "
                   ++ match commands with [] => py "NONE" | _ :: _ => commands end)) (fun _ =>
      (* Update chat history *)
      bind (chat_history_append (mk_chat_message (py "user") message)) (fun _ =>
      bind (chat_history_append (mk_chat_message (py "assistant") text)) (fun _ =>
      (* Create new map HTML file with embedded commands *)
      bind (create_map_with_commands commands map_port) (fun new_map_html =>
      fun w' => (Return ([], chatbot w', new_map_html), w')))))))) w.

(** [clear_chat()] *)
Definition clear_chat : list chat_message := [].

End Handlers.

End Interactive.

(** ** [pydantic-ai/warsaw_gradio.py] *)

Module PydanticGradio.

Section Handlers.

(** [agent.run(message)] and its [.output]. *)
Variable agent_run : list str -> str -> result str.

Definition await_agent_run (message : str) : Py str :=
  fun w =>
    (agent_run (agent_calls w) message,
     mk_World (environ w) (stdout w) (files w) (time_ms w)
              (agent_calls w ++ [message]) (chatbot w)).

Definition chat_async (message : str) (history : list chat_message) : Py str :=
  try_except
    (bind (await_agent_run message) (fun output => ret output))
    is_Exception
    (fun e => ret (py "Sorry, I encountered an error: " ++ exc_str e)).

Definition chat (message : str) (history : list chat_message) : Py str :=
  chat_async message history.

End Handlers.

End PydanticGradio.

(** ** [langgraph/warsaw_gradio_blocks.py] *)

Module LangGraphBlocks.

(** The content of a LangChain message: a string, or a list of content
    blocks. *)
Inductive message_content :=
| StrContent (s : str)
| BlockContent.

Record lc_message := mk_lc_message { lc_content : message_content }.

(** [https://api\.mapbox\.com/[^\s\)]+] *)
Definition url_pattern : regex :=
  Cat (lit (py "https://api.mapbox.com/"))
      (Plus (fun c => negb (isspace c || (c =? 41)%N))).

(** The loop over the messages that looks for the URL of a static map: the
    first string content that holds [api.mapbox.com] and matches the
    pattern. *)
Fixpoint find_image_url (messages : list lc_message) : option str :=
match messages with
| [] => None
| msg :: rest =>
    match lc_content msg with
    | StrContent content =>
        if contains (py "api.mapbox.com") content then
          match search url_pattern content with
          | Some url_match => Some (group0 url_match)
          | None => find_image_url rest
          end
        else find_image_url rest
    | BlockContent => find_image_url rest
    end
end.

Section Handlers.

(** [initialize_agent()] followed by [agent_executor.ainvoke(...)]: the
    list under ["messages"] of the result (empty when the key is absent), or
    the exception raised. *)
Variable agent_ainvoke : list str -> str -> result (list lc_message).

Definition await_agent_ainvoke (prompt : str) : Py (list lc_message) :=
  fun w =>
    (agent_ainvoke (agent_calls w) prompt,
     mk_World (environ w) (stdout w) (files w) (time_ms w)
              (agent_calls w ++ [prompt]) (chatbot w)).

Definition full_prompt (message : str) : str :=
  py "You are an expert tour guide for Warsaw, Poland." ++ [LF] ++ [LF]
  ++ message ++ [LF] ++ [LF]
  ++ py "Use the available Mapbox tools to provide accurate location information.".

Definition chat_with_images (message : str) (history : list chat_message)
  : Py (message_content * option str) :=
  try_except
    (bind (await_agent_ainvoke (full_prompt message)) (fun messages =>
     let text_response :=
       match last messages with
       | Some m => lc_content m
       | None => StrContent (py "No response")
       end in
     ret (text_response, find_image_url messages)))
    is_Exception
    (fun e => ret (StrContent (py "Sorry, I encountered an error: " ++ exc_str e), None)).

End Handlers.

End LangGraphBlocks.

(** ** [crewai/warsaw_gradio.py] *)

Module CrewAIGradio.

Section Handlers.

(** [create_warsaw_agent(mcp_config)], the task, the crew and
    [str(crew.kickoff())] for a task description: the answer, or the
    exception any of them raises, given the descriptions run before. *)
Variable crew_kickoff : server_config -> list str -> str -> result str.

Variable script_dir : str.

Definition task_description (message : str) : str :=
  py "The user asks: " ++ message ++ [LF] ++ [LF]
  ++ py "            Use the Mapbox tools to provide accurate, helpful information about Warsaw."
  ++ [LF]
  ++ py "            Be conversational and friendly in your response.".

Definition run_crew (mcp_config : server_config) (description : str) : Py str :=
  fun w =>
    (crew_kickoff mcp_config (agent_calls w) description,
     mk_World (environ w) (stdout w) (files w) (time_ms w)
              (agent_calls w ++ [description]) (chatbot w)).

Definition chat (message : str) (history : list chat_message) : Py str :=
  try_except
    (fun w =>
       (* Configure MCP *)
       bind (lift (crewai_warsaw.get_mapbox_mcp_config (environ w) script_dir)) (fun mcp_config =>
       (* Create agent, task and crew, and run the crew *)
       bind (run_crew mcp_config (task_description message)) (fun result =>
       ret result)) w)
    is_Exception
    (fun e => ret (py "Sorry, I encountered an error: " ++ exc_str e)).

End Handlers.

End CrewAIGradio.

(** ** Vocabulary of the statements *)

Module Spec.

Import Interactive.

Definition empty_world : World := mk_World ∅ [] ∅ 0%N [] [].

(** The world after [lines] more were printed. *)
Definition with_stdout (w : World) (lines : list str) : World :=
  mk_World (environ w) (stdout w ++ lines) (files w) (time_ms w) (agent_calls w) (chatbot w).

(** A fenced block labelled [MAP_COMMANDS] around [contents]. *)
Definition fenced_block (contents : str) : str :=
  py "```MAP_COMMANDS" ++ [LF] ++ contents ++ [LF] ++ py "```".

(** The blocks of a text, as [extract_map_commands] finds them. *)
Definition blocks (text : str) : list Match := finditer map_commands_pattern text.


(** The contents of the block parse as JSON. *)
Definition well_formed (m : Match) : bool :=
match json_loads (group1 m) with
| Return _ => true
| Raise _ => false
end.

(** The contents of the block fail to parse as JSON: [json.loads] raises
    [JSONDecodeError]. *)
Definition malformed (m : Match) : bool :=
match json_loads (group1 m) with
| Return _ => false
| Raise e => is_JSONDecodeError (exc_type e)
end.

(** [json.loads] returns on the contents of the block or raises
    [JSONDecodeError]: it raises nothing else. *)
Definition decodable (m : Match) : bool := well_formed m || malformed m.

(** The commands a block contributes: the items of its array. *)
Definition block_commands (m : Match) : list json :=
match json_loads (group1 m) with
| Return (JList l) => l
| _ => []
end.

(** What processing a block does to the display text. *)
Definition remove_block (clean_text : str) (m : Match) : str :=
  if well_formed m then strip (replace clean_text (group0 m) []) else clean_text.

(** What processing a block prints. *)
Definition block_log (m : Match) : list str :=
match json_loads (group1 m) with
| Return _ => []
| Raise e =>
    if is_JSONDecodeError (exc_type e)
    then [py "Failed to parse map commands: " ++ exc_str e]
    else []
end.

(** A message that [respond] does not pass on. *)
Definition blank (message : str) : Prop := Forall (fun c => isspace c = true) message.


(** An integer literal of [n] digits. *)
Definition long_integer (n : nat) : str := repeat 49%N n.

(** A world in which the secret token is set, the public token is not, and
    the map template is in place. *)
Definition world_without_public_token : World :=
  mk_World {[ MAPBOX_ACCESS_TOKEN := py "sk.secret" ]} []
           {[ py "/app/map_template.html" := py "<script>t = '__MAPBOX_TOKEN__';</script></body>" ]}
           0%N [] [].

(** An agent whose call raises [e]. *)
Definition raising {A : Type} (e : exn) : list str -> str -> result A := fun _ _ => Raise e.

(** The reply of the chat handlers to an exception. *)
Definition apology (e : exn) : str := py "Sorry, I encountered an error: " ++ exc_str e.

(** The world after one more prompt was sent to the agent. *)
Definition with_agent_call (w : World) (prompt : str) : World :=
  mk_World (environ w) (stdout w) (files w) (time_ms w) (agent_calls w ++ [prompt]) (chatbot w).

(** The keyword arguments [name], [latitude] and [longitude]. *)
Definition required_kwargs (n la lo : str) : gmap str value :=
  {[ py "name" := VStr n; py "latitude" := VFloat la; py "longitude" := VFloat lo ]}.

(** The label that opens a block, with its fence. *)
Definition BLOCK_LABEL : str := py "```MAP_COMMANDS".

(** The text holds no backtick. *)
Definition no_backtick (s : str) : Prop := Forall (fun c => c <> BACKTICK) s.



(** The outcome of a call is a value or an exception that derives from
    [Exception]: not one of the signals [KeyboardInterrupt], [SystemExit],
    [GeneratorExit], [CancelledError]. *)
Definition no_signal {A : Type} (r : result A) : Prop :=
match r with
| Return _ => True
| Raise e => is_Exception (exc_type e) = true
end.

(** The start of the URL of a static map, and the characters that may follow
    it in the pattern of [chat_with_images]. *)
Definition MAPBOX_URL : str := py "https://api.mapbox.com/".
Definition url_char (c : N) : bool := negb (isspace c || (c =? 41)%N).


(** A reply with a block of two commands. *)
Definition sample_reply : str :=
  py "Flying to the palace!" ++ [LF] ++ fenced_block (py "[1, 2]") ++ [LF] ++ py "Enjoy.".

(** A world with the secret token and no file. *)
Definition world_without_template : World :=
  mk_World {[ MAPBOX_ACCESS_TOKEN := py "sk.secret" ]} [] ∅ 0%N [] [].

End Spec.
Export Spec.

(** * Properties *)

(** ** Strings *)

Section Strings.

Lemma lstrip_blank (s : str) : blank s -> lstrip s = [].
Proof.
  induction 1 as [|c s Hc _ IH]; simpl; [reflexivity|].
  now rewrite Hc.
Qed.

Lemma strip_blank (s : str) : blank s -> strip s = [].
Proof.
  intros H. unfold strip, rstrip. now rewrite (lstrip_blank s H).
Qed.



End Strings.

(** ** The response post-processor *)

Section Extraction.

Import Interactive.

Lemma with_stdout_nil (w : World) : with_stdout w [] = w.
Proof.
  destruct w; unfold with_stdout; simpl. now rewrite app_nil_r.
Qed.

Lemma with_stdout_app (w : World) (a b : list str) :
  with_stdout (with_stdout w a) b = with_stdout w (a ++ b).
Proof.
  unfold with_stdout; simpl. now rewrite app_assoc.
Qed.

(** One turn of the loop, by the three ways [json.loads] can end. *)
Lemma extract_block_well_formed (m : Match) (v : json) (cmds : list json) (clean : str)
  (w : World) :
  json_loads (group1 m) = Return v ->
  extract_block (cmds, clean) m w =
  (Return (cmds ++ block_commands m, remove_block clean m), w).
Proof.
  intros E.
  unfold extract_block, try_except, bind, lift, ret, block_commands, remove_block, well_formed.
  rewrite E. destruct v; simpl; rewrite ?app_nil_r; reflexivity.
Qed.

Lemma extract_block_malformed (m : Match) (e : exn) (cmds : list json) (clean : str)
  (w : World) :
  json_loads (group1 m) = Raise e ->
  is_JSONDecodeError (exc_type e) = true ->
  extract_block (cmds, clean) m w =
  (Return (cmds, clean), with_stdout w [py "Failed to parse map commands: " ++ exc_str e]).
Proof.
  intros E He.
  unfold extract_block, try_except, bind, lift, ret, print.
  rewrite E, He. reflexivity.
Qed.

Lemma extract_block_escapes (m : Match) (e : exn) (cmds : list json) (clean : str)
  (w : World) :
  json_loads (group1 m) = Raise e ->
  is_JSONDecodeError (exc_type e) = false ->
  extract_block (cmds, clean) m w = (Raise e, w).
Proof.
  intros E He.
  unfold extract_block, try_except, bind, lift, ret, print.
  rewrite E, He. reflexivity.
Qed.

(** What the vocabulary says of a block, by the way [json.loads] ends. *)
Lemma block_log_well_formed (m : Match) (v : json) :
  json_loads (group1 m) = Return v -> block_log m = [].
Proof. intros E. unfold block_log. now rewrite E. Qed.

Lemma block_log_malformed (m : Match) (e : exn) :
  json_loads (group1 m) = Raise e -> is_JSONDecodeError (exc_type e) = true ->
  block_log m = [py "Failed to parse map commands: " ++ exc_str e].
Proof. intros E He. unfold block_log. now rewrite E, He. Qed.



Lemma remove_block_return (m : Match) (v : json) (clean : str) :
  json_loads (group1 m) = Return v ->
  remove_block clean m = strip (replace clean (group0 m) []).
Proof. intros E. unfold remove_block, well_formed. now rewrite E. Qed.


(** The loop stops at the first block on which [json.loads] raises
    something else, and the exception leaves the function. *)
Lemma for_each_extract_block_escapes (ms1 : list Match) (m : Match) (ms2 : list Match)
  (e : exn) (cmds : list json) (clean : str) (w : World) :
  forallb decodable ms1 = true ->
  json_loads (group1 m) = Raise e ->
  is_JSONDecodeError (exc_type e) = false ->
  for_each (ms1 ++ m :: ms2) extract_block (cmds, clean) w =
  (Raise e, with_stdout w (concat (map block_log ms1))).
Proof.
  revert cmds clean w.
  induction ms1 as [|m1 ms1 IH]; intros cmds clean w H1 E He.
  - cbn [app for_each]. unfold bind.
    rewrite (extract_block_escapes m e cmds clean w E He).
    simpl. now rewrite with_stdout_nil.
  - simpl in H1. apply andb_true_iff in H1 as [Hm Hms].
    cbn [app for_each map concat]. unfold bind at 1.
    unfold decodable, well_formed, malformed in Hm.
    destruct (json_loads (group1 m1)) as [v|e1] eqn:E1.
    + rewrite (extract_block_well_formed m1 v cmds clean w E1).
      rewrite IH by assumption.
      now rewrite (block_log_well_formed m1 v E1).
    + simpl in Hm.
      rewrite (extract_block_malformed m1 e1 cmds clean w E1 Hm).
      rewrite IH by assumption.
      rewrite with_stdout_app.
      now rewrite (block_log_malformed m1 e1 E1 Hm).
Qed.


End Extraction.

Section ExtractionClaims.

Import Interactive.

(** An exception of [json.loads] that is not a [JSONDecodeError] leaves
    [extract_map_commands], from the first block that raises one. *)
Lemma extract_map_commands_escapes (text : str) (ms1 : list Match) (m : Match)
  (ms2 : list Match) (e : exn) (w : World) :
  blocks text = ms1 ++ m :: ms2 ->
  forallb decodable ms1 = true ->
  json_loads (group1 m) = Raise e ->
  is_JSONDecodeError (exc_type e) = false ->
  extract_map_commands text w = (Raise e, with_stdout w (concat (map block_log ms1))).
Proof.
  intros Hb H1 E He. unfold extract_map_commands. fold (blocks text). rewrite Hb.
  destruct (ms1 ++ m :: ms2) as [|x xs] eqn:Hx.
  - now destruct ms1.
  - rewrite <- Hx. unfold bind.
    now rewrite (for_each_extract_block_escapes ms1 m ms2 e [] text w H1 E He).
Qed.




(** C2: at a text with a malformed block, the commands of the well-formed
    blocks are not returned when another block holds an integer literal
    longer than [int()] converts: [json.loads] raises [ValueError], which the
    handler for [JSONDecodeError] lets through. *)
Theorem C2_malformed_block_then_long_integer :
  let text := fenced_block (py "[1]") ++ [LF] ++ fenced_block (py "not json") ++ [LF]
              ++ fenced_block (long_integer 4301) in
  map malformed (blocks text) = [false; true; false]
  /\ extract_map_commands text empty_world
     = (Raise (mk_exn ValueError (int_too_long_str 4301)),
        with_stdout empty_world
          [py "Failed to parse map commands: Expecting value: line 1 column 1 (char 0)"]).
Proof.
  split; vm_compute; reflexivity.
Qed.



(** C9: [extract_map_commands] does not return on every text. On a block
    that holds an integer literal of 4301 digits [json.loads] raises
    [ValueError], which is not a [JSONDecodeError] and leaves the function. *)
Theorem C9_long_integer_escapes :
  extract_map_commands (fenced_block (long_integer 4301)) empty_world
  = (Raise (mk_exn ValueError (int_too_long_str 4301)), empty_world).
Proof.
  vm_compute. reflexivity.
Qed.

End ExtractionClaims.

(** ** Start of the interactive-map script *)

Section Startup.

Import Interactive.





End Startup.

(** ** Tool-server configuration *)

Section Configuration.

Lemma subprocess_envs_stdio (s : MCPServerStdio) : subprocess_envs (ServerStdio s) = [env s].
Proof. reflexivity. Qed.

Lemma subprocess_envs_dict (k : str) (e : server_entry) :
  subprocess_envs (ServerDict {[ k := e ]}) = [se_env e].
Proof.
  unfold subprocess_envs. now rewrite map_to_list_singleton.
Qed.

Lemma falsy_nonempty (environ : gmap str str) (token : str) :
  environ !! MAPBOX_ACCESS_TOKEN = Some token -> token <> [] ->
  falsy (environ_get environ MAPBOX_ACCESS_TOKEN) = false
  /\ default [] (environ_get environ MAPBOX_ACCESS_TOKEN) = token.
Proof.
  intros H Hne. unfold environ_get. rewrite H.
  destruct token; [congruence|]. split; reflexivity.
Qed.

(** C4, as stated, fails: a variable that is present but empty is treated
    as absent, and no configuration is returned. *)
Lemma C4_empty_token_raises :
  ({[ MAPBOX_ACCESS_TOKEN := [] ]} : gmap str str) !! MAPBOX_ACCESS_TOKEN = Some []
  /\ tool_server_config pydantic_ai_warsaw_gradio_blocks_interactive
       {[ MAPBOX_ACCESS_TOKEN := [] ]} (py "/app") (py "node")
     = Raise token_required.
Proof.
  split; vm_compute; reflexivity.
Qed.

(** C4 (amended). In every script, if [MAPBOX_ACCESS_TOKEN] is absent or
    empty, the tool-server configuration function raises [EnvironmentError]
    and returns no configuration. If it is present and not empty, and the
    connection type given to a function that takes one is [node] or [npx],
    the function returns a configuration whose subprocess environment holds
    exactly that token; a function given any other connection type raises
    [ValueError]. *)
Theorem C4_tool_server_config (s : script) (environ : gmap str str)
  (script_dir connection_type : str) :
  (falsy (environ !! MAPBOX_ACCESS_TOKEN) = true ->
     tool_server_config s environ script_dir connection_type = Raise token_required
     /\ exc_type token_required = EnvironmentError)
  /\ (forall token : str,
        environ !! MAPBOX_ACCESS_TOKEN = Some token -> token <> [] ->
        (takes_connection_type s = true ->
           connection_type = py "node" \/ connection_type = py "npx") ->
        exists c : server_config,
          tool_server_config s environ script_dir connection_type = Return c
          /\ subprocess_envs c = [ {[ MAPBOX_ACCESS_TOKEN := token ]} ])
  /\ (forall token : str,
        environ !! MAPBOX_ACCESS_TOKEN = Some token -> token <> [] ->
        takes_connection_type s = true ->
        connection_type <> py "node" -> connection_type <> py "npx" ->
        tool_server_config s environ script_dir connection_type
        = Raise (unknown_connection_type connection_type)).
Proof.
  split; [|split].
  - intros H. split; [|reflexivity].
    destruct s; cbn [tool_server_config];
      unfold crewai_example.get_mapbox_mcp_config, crewai_warsaw.get_mapbox_mcp_config,
        langgraph_example.get_mcp_config, langgraph_warsaw.get_mcp_config,
        pydantic_ai_example.get_mcp_server, pydantic_ai_warsaw.get_mcp_server, environ_get;
      now rewrite H.
  - intros token Hm Hne Hct.
    destruct (falsy_nonempty environ token Hm Hne) as [Hf Hd].
    destruct s; cbn [tool_server_config takes_connection_type] in *;
      unfold crewai_example.get_mapbox_mcp_config, crewai_warsaw.get_mapbox_mcp_config,
        langgraph_example.get_mcp_config, langgraph_warsaw.get_mcp_config,
        pydantic_ai_example.get_mcp_server, pydantic_ai_warsaw.get_mcp_server;
      rewrite Hf, Hd;
      try (destruct (Hct eq_refl) as [-> | ->]; cbn [bool_decide]);
      (eexists; split; [reflexivity|]);
      rewrite ?subprocess_envs_dict; reflexivity.
  - intros token Hm Hne Ht Hnode Hnpx.
    destruct (falsy_nonempty environ token Hm Hne) as [Hf Hd].
    destruct s; try discriminate Ht; cbn [tool_server_config];
      unfold crewai_example.get_mapbox_mcp_config, langgraph_example.get_mcp_config,
        pydantic_ai_example.get_mcp_server;
      rewrite Hf, !bool_decide_eq_false_2 by assumption; reflexivity.
Qed.

Lemma C4_tool_server_config_witness :
  falsy ((∅ : gmap str str) !! MAPBOX_ACCESS_TOKEN) = true
  /\ tool_server_config langgraph_langgraph_example ∅ (py "/app") (py "node")
     = Raise token_required
  /\ (exists c : server_config,
        tool_server_config crewai_crewai_example {[ MAPBOX_ACCESS_TOKEN := py "sk.secret" ]}
          (py "/app") (py "npx") = Return c
        /\ subprocess_envs c = [ {[ MAPBOX_ACCESS_TOKEN := py "sk.secret" ]} ])
  /\ tool_server_config pydantic_ai_pydantic_ai_example
       {[ MAPBOX_ACCESS_TOKEN := py "sk.secret" ]} (py "/app") (py "docker")
     = Raise (unknown_connection_type (py "docker")).
Proof.
  split; [reflexivity|]. split; [|split].
  - apply (C4_tool_server_config langgraph_langgraph_example ∅ (py "/app") (py "node")).
    reflexivity.
  - apply (C4_tool_server_config crewai_crewai_example
             {[ MAPBOX_ACCESS_TOKEN := py "sk.secret" ]} (py "/app") (py "npx")).
    + apply lookup_singleton_eq.
    + discriminate.
    + intros _. right. reflexivity.
  - apply (proj2 (proj2 (C4_tool_server_config pydantic_ai_pydantic_ai_example
             {[ MAPBOX_ACCESS_TOKEN := py "sk.secret" ]} (py "/app") (py "docker")))
             (py "sk.secret")).
    + apply lookup_singleton_eq.
    + discriminate.
    + reflexivity.
    + discriminate.
    + discriminate.
Defined.

End Configuration.

(** ** The chat handlers *)

Section ChatHandlers.

Import Interactive PydanticGradio LangGraphBlocks.

Variable agent_run : list str -> str -> result str.
Variable agent_ainvoke : list str -> str -> result (list lc_message).
Variable float_repr : str -> str.

(** C5, as stated, fails: an exception that does not derive from
    [Exception], such as [KeyboardInterrupt] or the [CancelledError] of a
    cancelled task, is not caught by the handlers and reaches the UI. *)
Lemma C5_keyboard_interrupt_propagates :
  let e := mk_exn KeyboardInterrupt [] in
  chat_async (raising e) (py "hi") [] empty_world
  = (Raise e, with_agent_call empty_world (py "hi"))
  /\ chat_with_map_control (raising e) (fun l => l) (py "hi") [] empty_world
     = (Raise e, with_agent_call empty_world (py "hi"))
  /\ fst (chat_with_images (raising (mk_exn CancelledError [])) (py "hi") [] empty_world)
     = Raise (mk_exn CancelledError []).
Proof.
  repeat split; vm_compute; reflexivity.
Qed.

(** C5 (amended). For every user message, if the agent call raises an
    exception that derives from [Exception], the chat handler returns
    normally with the reply [Sorry, I encountered an error: <message>] (and,
    in the interactive-map handler, an empty map-command string; in the
    LangGraph handler, no image); the exception does not reach the UI. *)
Theorem C5_chat_handlers_apologise (message : str) (history : list chat_message)
  (w : World) (e : exn) :
  is_Exception (exc_type e) = true ->
  (agent_run (agent_calls w) message = Raise e ->
     chat_async agent_run message history w
     = (Return (py "Sorry, I encountered an error: " ++ exc_str e), with_agent_call w message)
     /\ chat_with_map_control agent_run float_repr message history w
        = (Return (py "Sorry, I encountered an error: " ++ exc_str e, []),
           with_agent_call w message))
  /\ (agent_ainvoke (agent_calls w) (full_prompt message) = Raise e ->
      chat_with_images agent_ainvoke message history w
      = (Return (StrContent (py "Sorry, I encountered an error: " ++ exc_str e), None),
         with_agent_call w (full_prompt message))).
Proof.
  intros He. split.
  - intros Ha. split.
    + unfold chat_async, try_except, bind, PydanticGradio.await_agent_run.
      now rewrite Ha, He.
    + unfold chat_with_map_control, try_except, bind, Interactive.await_agent_run.
      now rewrite Ha, He.
  - intros Ha.
    unfold chat_with_images, try_except, bind, await_agent_ainvoke.
    now rewrite Ha, He.
Qed.

(** Whatever the agent replies, the interactive-map handler lets no
    exception that derives from [Exception] through: what
    [extract_map_commands] raises is caught as well. *)
Lemma chat_with_map_control_catches (message : str) (history : list chat_message)
  (w : World) (e : exn) (w' : World) :
  chat_with_map_control agent_run float_repr message history w = (Raise e, w') ->
  is_Exception (exc_type e) = false.
Proof.
  unfold chat_with_map_control, try_except.
  destruct (bind _ _ w) as [[r|e0] w0]; [discriminate|].
  destruct (is_Exception (exc_type e0)) eqn:E; [discriminate|].
  intros [= <- _]. exact E.
Qed.

End ChatHandlers.

Lemma C5_chat_handlers_apologise_witness :
  let e := mk_exn (OtherException (py "RuntimeError")) (py "connection lost") in
  is_Exception (exc_type e) = true
  /\ PydanticGradio.chat_async (raising e) (py "hi") [] empty_world
     = (Return (py "Sorry, I encountered an error: connection lost"),
        with_agent_call empty_world (py "hi"))
  /\ Interactive.chat_with_map_control (raising e) (fun l => l) (py "hi") [] empty_world
     = (Return (py "Sorry, I encountered an error: connection lost", []),
        with_agent_call empty_world (py "hi"))
  /\ fst (LangGraphBlocks.chat_with_images (raising e) (py "hi") [] empty_world)
     = Return (LangGraphBlocks.StrContent (py "Sorry, I encountered an error: connection lost"),
               None).
Proof.
  intros e.
  destruct (C5_chat_handlers_apologise (raising e) (raising e) (fun l => l) (py "hi") []
              empty_world e eq_refl) as [H1 H2].
  destruct (H1 eq_refl) as [Ha Hb]. specialize (H2 eq_refl).
  split; [reflexivity|]. split; [exact Ha|]. split; [exact Hb|].
  rewrite H2. reflexivity.
Defined.

(** ** The [Location] model *)

Section LocationModel.

Lemma construct_invalid (fields : list field) (kwargs : gmap str value) :
  snd (validate_fields kwargs fields) <> [] ->
  construct fields kwargs = Invalid (snd (validate_fields kwargs fields)).
Proof.
  unfold construct. destruct (validate_fields kwargs fields) as [vs [|e es]]; simpl.
  - congruence.
  - reflexivity.
Qed.

(** A required field that is not given is reported as missing. *)
Lemma validate_fields_missing (kwargs : gmap str value) (fs : list field) (f : field) :
  f ∈ fs -> f_default f = None -> kwargs !! f_name f = None ->
  (f_name f, missing) ∈ snd (validate_fields kwargs fs).
Proof.
  intros Hin Hd Hk. induction Hin as [f fs | f g fs Hin IH].
  - cbn [validate_fields]. destruct (validate_fields kwargs fs) as [vs es].
    unfold validate_field. rewrite Hk, Hd. simpl. apply list_elem_of_here.
  - cbn [validate_fields]. destruct (validate_fields kwargs fs) as [vs es].
    specialize (IH Hd Hk). simpl in IH. destruct (validate_field kwargs g); simpl.
    + exact IH.
    + apply list_elem_of_further. exact IH.
Qed.

Lemma required_field (fields : list field) (kwargs : gmap str value) (f : field) :
  f ∈ fields -> f_default f = None -> kwargs !! f_name f = None ->
  construct fields kwargs = Invalid (snd (validate_fields kwargs fields))
  /\ (f_name f, missing) ∈ snd (validate_fields kwargs fields).
Proof.
  intros Hin Hd Hk.
  pose proof (validate_fields_missing kwargs fields f Hin Hd Hk) as Hm.
  split; [|exact Hm].
  apply construct_invalid. intros E. rewrite E in Hm. now apply not_elem_of_nil in Hm.
Qed.

(** C7. A [Location] can be built from [name], [latitude] and [longitude]
    alone, and then [address], [country] and [description] are [None];
    building one without [name], without [latitude] or without [longitude] is
    a validation error that reports the field as missing. This holds for the
    class of each of the three scripts that declare it. *)
Theorem C7_Location_required_fields (n la lo : str) (kwargs : gmap str value) (f : str) :
  with_Field.Location (required_kwargs n la lo) = Valid (mk_Location n la lo None None None)
  /\ plain.Location (required_kwargs n la lo) = Valid (mk_Location n la lo None None None)
  /\ (f ∈ [py "name"; py "latitude"; py "longitude"] -> kwargs !! f = None ->
      exists errors : list (str * error_type),
        with_Field.Location kwargs = Invalid errors
        /\ plain.Location kwargs = Invalid errors
        /\ (f, missing) ∈ errors).
Proof.
  split; [|split].
  - vm_compute. reflexivity.
  - vm_compute. reflexivity.
  - intros Hf Hk.
    assert (Hfield : exists fld : field,
               fld ∈ with_Field.Location_fields /\ f_default fld = None /\ f_name fld = f).
    { rewrite !elem_of_cons in Hf. destruct Hf as [-> | [-> | [-> | Hf]]].
      - exists (mk_field (py "name") TStr None). repeat split. set_solver.
      - exists (mk_field (py "latitude") TFloat None). repeat split. set_solver.
      - exists (mk_field (py "longitude") TFloat None). repeat split. set_solver.
      - now apply not_elem_of_nil in Hf. }
    destruct Hfield as (fld & Hin & Hd & <-).
    destruct (required_field with_Field.Location_fields kwargs fld Hin Hd Hk) as [Hc Hm].
    exists (snd (validate_fields kwargs with_Field.Location_fields)).
    split; [exact Hc|]. split; [exact Hc|exact Hm].
Qed.

Lemma C7_Location_required_fields_witness :
  py "latitude" ∈ [py "name"; py "latitude"; py "longitude"]
  /\ ({[ py "name" := VStr (py "Warsaw"); py "longitude" := VFloat (py "21.0122") ]}
        : gmap str value) !! py "latitude" = None
  /\ exists errors : list (str * error_type),
       with_Field.Location
         {[ py "name" := VStr (py "Warsaw"); py "longitude" := VFloat (py "21.0122") ]}
       = Invalid errors
       /\ plain.Location
            {[ py "name" := VStr (py "Warsaw"); py "longitude" := VFloat (py "21.0122") ]}
          = Invalid errors
       /\ (py "latitude", missing) ∈ errors.
Proof.
  assert (H1 : py "latitude" ∈ [py "name"; py "latitude"; py "longitude"]) by set_solver.
  assert (H2 : ({[ py "name" := VStr (py "Warsaw"); py "longitude" := VFloat (py "21.0122") ]}
                  : gmap str value) !! py "latitude" = None) by (vm_compute; reflexivity).
  split; [exact H1|]. split; [exact H2|].
  exact (proj2 (proj2 (C7_Location_required_fields [] [] []
           {[ py "name" := VStr (py "Warsaw"); py "longitude" := VFloat (py "21.0122") ]}
           (py "latitude"))) H1 H2).
Defined.

(** The same call, evaluated. *)
Example Location_without_latitude :
  with_Field.Location
    {[ py "name" := VStr (py "Warsaw"); py "longitude" := VFloat (py "21.0122") ]}
  = Invalid [(py "latitude", missing)].
Proof. vm_compute. reflexivity. Qed.

End LocationModel.

(** ** The handler of the interactive-map page *)

Section Respond.

Import Interactive.

(** C10. For every message that is empty or made of whitespace only,
    [respond] returns the empty string for the textbox, the chat history as
    it was and the initial map HTML, and changes nothing: no agent call, no
    print, no file, no change to the history. *)
Theorem C10_respond_blank_message (agent_run : list str -> str -> result str)
  (float_repr : str -> str) (script_dir : str) (map_port : N) (message : str) (w : World) :
  blank message ->
  respond agent_run float_repr script_dir map_port message w
  = (Return ([], chatbot w, map_html map_port), w).
Proof.
  intros H. unfold respond.
  rewrite (strip_blank message H). reflexivity.
Qed.

Lemma C10_respond_blank_message_witness :
  blank (py "   " ++ [LF])
  /\ respond (raising (mk_exn ValueError [])) (fun l => l) (py "/app") 8000%N
       (py "   " ++ [LF]) world_without_public_token
     = (Return ([], [], map_html 8000%N), world_without_public_token).
Proof.
  assert (H : blank (py "   " ++ [LF])) by (repeat constructor).
  split; [exact H|].
  exact (C10_respond_blank_message (raising (mk_exn ValueError [])) (fun l => l) (py "/app")
           8000%N (py "   " ++ [LF]) world_without_public_token H).
Defined.

End Respond.

(** ** The matcher *)

Section Matcher.

Lemma startswith_app (l s : str) : startswith l (l ++ s) = true.
Proof.
  induction l as [|c l IH]; simpl; [reflexivity|].
  now rewrite N.eqb_refl, IH.
Qed.

Lemma startswith_inv (l s : str) : startswith l s = true -> s = l ++ drop (length l) s.
Proof.
  revert s. induction l as [|c l IH]; intros s H; simpl in *; [reflexivity|].
  destruct s as [|x s]; [discriminate|].
  apply andb_true_iff in H as [Hc Hl]. apply N.eqb_eq in Hc. subst x.
  simpl. f_equal. now apply IH.
Qed.

(** A literal matches exactly when the subject starts with it. *)
Lemma rmatch_lit (l : str) : forall (i : nat) (s : str) (g : capture) (k : cont),
  rmatch (lit l) i s g k
  = if startswith l s then k (i + length l) (drop (length l) s) g else None.
Proof.
  induction l as [|c l IH]; intros i s g k; simpl.
  - now rewrite Nat.add_0_r.
  - destruct s as [|x s]; [reflexivity|].
    rewrite N.eqb_sym. destruct (c =? x)%N; simpl; [|reflexivity].
    rewrite IH. now rewrite Nat.add_succ_r.
Qed.

(** What a successful greedy or lazy run consumed. *)
Lemma greedy_sound (p : N -> bool) (s : str) :
  forall (i : nat) (g : capture) (k : cont) (r : nat * capture),
    greedy p i s g k = Some r ->
    exists run rest : str,
      s = run ++ rest /\ forallb p run = true /\ k (i + length run) rest g = Some r.
Proof.
  induction s as [|c s IH]; intros i g k r H; simpl in H.
  - exists [], []. now rewrite Nat.add_0_r.
  - destruct (p c) eqn:Hc.
    + destruct (greedy p (S i) s g k) as [r'|] eqn:E.
      * injection H as <-. destruct (IH _ _ _ _ E) as (run & rest & -> & Hp & Hk).
        exists (c :: run), rest. simpl. rewrite Hc, Hp.
        now rewrite Nat.add_succ_r.
      * exists [], (c :: s). now rewrite Nat.add_0_r.
    + exists [], (c :: s). now rewrite Nat.add_0_r.
Qed.

Lemma lazy_sound (p : N -> bool) (s : str) :
  forall (i : nat) (g : capture) (k : cont) (r : nat * capture),
    lazy p i s g k = Some r ->
    exists run rest : str,
      s = run ++ rest /\ forallb p run = true /\ k (i + length run) rest g = Some r.
Proof.
  induction s as [|c s IH]; intros i g k r H; simpl in H.
  - destruct (k i [] g) as [r'|] eqn:E; [|discriminate].
    injection H as <-. exists [], []. now rewrite Nat.add_0_r.
  - destruct (k i (c :: s) g) as [r'|] eqn:E.
    + injection H as <-. exists [], (c :: s). now rewrite Nat.add_0_r.
    + destruct (p c) eqn:Hc; [|discriminate].
      destruct (IH _ _ _ _ H) as (run & rest & -> & Hp & Hk).
      exists (c :: run), rest. simpl. rewrite Hc, Hp.
      now rewrite Nat.add_succ_r.
Qed.

End Matcher.

(** ** The blocks that are found *)

Section Blocks.

Import Interactive.

Lemma rmatch_cat (r1 r2 : regex) (i : nat) (s : str) (g : capture) (k : cont) :
  rmatch (Cat r1 r2) i s g k = rmatch r1 i s g (fun i' s' g' => rmatch r2 i' s' g' k).
Proof. reflexivity. Qed.

Lemma rmatch_chr (c : N) (i : nat) (s : str) (g : capture) (k : cont) :
  rmatch (Chr c) i s g k
  = match s with
    | x :: s' => if (x =? c)%N then k (S i) s' g else None
    | [] => None
    end.
Proof. reflexivity. Qed.

(** The shape of a match of the pattern of [extract_map_commands] at the
    start of [s]: the label, a run of whitespace, a line feed, the contents,
    a line feed and the closing fence; group 1 spans the contents. *)
Lemma match_at_map_commands (i : nat) (s : str) (e : nat) (g : capture) :
  match_at map_commands_pattern i s = Some (e, g) ->
  exists ws contents rest : str,
    s = BLOCK_LABEL ++ ws ++ [LF] ++ contents ++ [LF] ++ py "```" ++ rest
    /\ forallb isspace ws = true
    /\ e = i + length (BLOCK_LABEL ++ ws ++ [LF] ++ contents ++ [LF] ++ py "```")
    /\ g = Some (i + length (BLOCK_LABEL ++ ws ++ [LF]),
                 i + length (BLOCK_LABEL ++ ws ++ [LF]) + length contents).
Proof.
  unfold match_at, map_commands_pattern. rewrite rmatch_cat, rmatch_lit.
  fold BLOCK_LABEL.
  destruct (startswith BLOCK_LABEL s) eqn:Hl; [|discriminate].
  apply startswith_inv in Hl. set (s1 := drop (length BLOCK_LABEL) s) in *.
  rewrite rmatch_cat. cbn [rmatch]. intros H.
  apply greedy_sound in H as (ws & s2 & Hs1 & Hws & H).
  destruct s2 as [|x s3]; [discriminate|].
  destruct (x =? LF)%N eqn:Hx; [|discriminate]. apply N.eqb_eq in Hx. subst x.
  apply lazy_sound in H as (contents & s4 & Hs3 & _ & H).
  destruct s4 as [|y s5]; [discriminate|].
  destruct (y =? LF)%N eqn:Hy; [|discriminate]. apply N.eqb_eq in Hy. subst y.
  change (rmatch (lit (py "```")) (S (S (i + length BLOCK_LABEL + length ws) + length contents))
            s5 (Some (S (i + length BLOCK_LABEL + length ws),
                      S (i + length BLOCK_LABEL + length ws) + length contents))
            (fun i' _ g0 => Some (i', g0)) = Some (e, g)) in H.
  rewrite rmatch_lit in H.
  destruct (startswith (py "```") s5) eqn:Hf; [|discriminate].
  apply startswith_inv in Hf. injection H as <- <-.
  exists ws, contents, (drop (length (py "```")) s5).
  split; [|split; [exact Hws|split]].
  - rewrite <- Hf. rewrite Hl at 1. now rewrite Hs1, Hs3.
  - rewrite !length_app. simpl. lia.
  - rewrite !length_app. simpl. do 2 f_equal; lia.
Qed.

(** Every match that [finditer] reports is a match of the pattern at its
    start index in the subject. *)
Lemma finditer_scan_sound (r : regex) (text : str) (s : str) :
  forall (i skip : nat) (m : Match),
    s = drop i text ->
    m ∈ finditer_scan r text i s skip ->
    m_string m = text
    /\ match_at r (m_start m) (drop (m_start m) text) = Some (m_end m, m_group1 m).
Proof.
  induction s as [|c s IH]; intros i skip m Hs Hm.
  - destruct skip; simpl in Hm.
    + destruct (match_at r i []) as [[e g]|] eqn:E.
      * apply list_elem_of_singleton in Hm. subst m. simpl. now rewrite <- Hs.
      * now apply not_elem_of_nil in Hm.
    + now apply not_elem_of_nil in Hm.
  - assert (Hs' : s = drop (S i) text).
    { rewrite <- (Nat.add_1_r i), <- drop_drop, <- Hs. reflexivity. }
    destruct skip; cbn [finditer_scan] in Hm.
    + destruct (match_at r i (c :: s)) as [[e g]|] eqn:E.
      * apply elem_of_cons in Hm as [-> | Hm].
        -- simpl. now rewrite <- Hs.
        -- exact (IH _ _ _ Hs' Hm).
      * exact (IH _ _ _ Hs' Hm).
    + exact (IH _ _ _ Hs' Hm).
Qed.

(** X1. Every block that [extract_map_commands] processes lies in the reply,
    at its start index, and has the shape of a fenced block; the text given
    to [json.loads] is what stands between the line of the label and the
    closing fence. *)
Theorem blocks_are_fenced (text : str) (m : Match) :
  m ∈ blocks text ->
  exists before ws contents after : str,
    text = before ++ group0 m ++ after
    /\ length before = m_start m
    /\ group0 m = BLOCK_LABEL ++ ws ++ [LF] ++ contents ++ [LF] ++ py "```"
    /\ Forall (fun c => isspace c = true) ws
    /\ group1 m = contents.
Proof.
  intros Hm. unfold blocks, finditer in Hm.
  destruct (finditer_scan_sound map_commands_pattern text text 0 0 m eq_refl Hm) as [Hstr Hat].
  apply match_at_map_commands in Hat as (ws & contents & rest & Hd & Hws & He & Hg).
  set (block := BLOCK_LABEL ++ ws ++ [LF] ++ contents ++ [LF] ++ py "```") in *.
  assert (Hlen : m_start m <= length text).
  { destruct (decide (m_start m <= length text)) as [|Hn]; [assumption|].
    rewrite drop_ge in Hd by lia. destruct ws; discriminate Hd. }
  assert (Htext : text = take (m_start m) text ++ block ++ rest).
  { rewrite <- (take_drop (m_start m) text) at 1. f_equal.
    rewrite Hd. unfold block. now rewrite <- !app_assoc. }
  assert (Hg0 : group0 m = block).
  { unfold group0, slice. rewrite Hstr, He.
    replace (m_start m + length block - m_start m) with (length block) by lia.
    rewrite Hd.
    replace (BLOCK_LABEL ++ ws ++ [LF] ++ contents ++ [LF] ++ py "```" ++ rest)
      with (block ++ rest) by (unfold block; now rewrite <- !app_assoc).
    now rewrite take_app_length. }
  exists (take (m_start m) text), ws, contents, rest.
  split; [now rewrite Hg0|]. split; [apply length_take_le; exact Hlen|].
  split; [exact Hg0|]. split.
  - apply Forall_forall. intros c Hc. rewrite forallb_forall in Hws.
    apply Hws. now apply list_elem_of_In.
  - unfold group1, slice. rewrite Hg, Hstr.
    replace (m_start m + length (BLOCK_LABEL ++ ws ++ [LF]) + length contents
             - (m_start m + length (BLOCK_LABEL ++ ws ++ [LF]))) with (length contents) by lia.
    rewrite <- drop_drop, Hd.
    replace (BLOCK_LABEL ++ ws ++ [LF] ++ contents ++ [LF] ++ py "```" ++ rest)
      with ((BLOCK_LABEL ++ ws ++ [LF]) ++ contents ++ [LF] ++ py "```" ++ rest)
      by (now rewrite <- !app_assoc).
    rewrite drop_app_length. now rewrite take_app_length.
Qed.

End Blocks.

(** ** Replies without blocks, and what the display text is made of *)

Section DisplayText.

Import Interactive.

Lemma match_at_needs_label (i : nat) (s : str) :
  startswith BLOCK_LABEL s = false -> match_at map_commands_pattern i s = None.
Proof.
  intros H. unfold match_at, map_commands_pattern. rewrite rmatch_cat, rmatch_lit.
  fold BLOCK_LABEL. now rewrite H.
Qed.

Lemma finditer_scan_without_label (text : str) (s : str) :
  forall i : nat,
    contains BLOCK_LABEL s = false ->
    finditer_scan map_commands_pattern text i s 0 = [].
Proof.
  induction s as [|c s IH]; intros i H; cbn [contains] in H.
  - cbn [finditer_scan]. now rewrite (match_at_needs_label i [] H).
  - apply orb_false_iff in H as [H1 H2].
    cbn [finditer_scan]. rewrite (match_at_needs_label i (c :: s) H1).
    now apply IH.
Qed.

(** X2. A reply in which the label with its fence does not occur is
    returned as it is, with no commands; nothing is printed. *)
Theorem extract_map_commands_without_label (text : str) (w : World) :
  contains BLOCK_LABEL text = false ->
  extract_map_commands text w = (Return (text, []), w).
Proof.
  intros H. unfold extract_map_commands, finditer.
  destruct text as [|c s].
  - reflexivity.
  - now rewrite (finditer_scan_without_label (c :: s) (c :: s) 0 H).
Qed.

Lemma extract_map_commands_without_label_witness :
  contains BLOCK_LABEL (py "The Royal Castle is at `Plac Zamkowy 4`.") = false
  /\ extract_map_commands (py "The Royal Castle is at `Plac Zamkowy 4`.") empty_world
     = (Return (py "The Royal Castle is at `Plac Zamkowy 4`.", []), empty_world).
Proof.
  assert (H : contains BLOCK_LABEL (py "The Royal Castle is at `Plac Zamkowy 4`.") = false)
    by (vm_compute; reflexivity).
  split; [exact H|].
  exact (extract_map_commands_without_label _ empty_world H).
Defined.

Lemma lstrip_suffix (s : str) : exists ws : str, s = ws ++ lstrip s.
Proof.
  induction s as [|c s [ws IH]]; simpl.
  - now exists [].
  - destruct (isspace c).
    + exists (c :: ws). simpl. now f_equal.
    + now exists [].
Qed.

Lemma strip_sublist (s : str) : strip s `sublist_of` s.
Proof.
  unfold strip, rstrip.
  destruct (lstrip_suffix s) as [ws Hs].
  destruct (lstrip_suffix (rev (lstrip s))) as [ws' Hr].
  assert (H : lstrip s = rev (lstrip (rev (lstrip s))) ++ rev ws').
  { rewrite <- rev_app_distr, <- Hr. now rewrite rev_involutive. }
  rewrite Hs at 2. apply sublist_inserts_l.
  rewrite H at 2. apply sublist_inserts_r. reflexivity.
Qed.

Lemma replace_scan_sublist (old : str) (s : str) :
  forall skip : nat, replace_scan old [] s skip `sublist_of` s.
Proof.
  induction s as [|c s IH]; intros skip; simpl.
  - reflexivity.
  - destruct skip.
    + destruct (startswith old (c :: s)).
      * simpl. apply sublist_cons, IH.
      * apply sublist_skip, IH.
    + apply sublist_cons, IH.
Qed.

Lemma replace_sublist (s old : str) : replace s old [] `sublist_of` s.
Proof.
  unfold replace. destruct old as [|c old].
  - simpl. induction s as [|x s IH]; simpl; [reflexivity|]. now apply sublist_skip.
  - apply replace_scan_sublist.
Qed.

Lemma extract_block_sublist (cmds : list json) (clean : str) (m : Match) (w : World)
  (cmds' : list json) (clean' : str) (w' : World) :
  extract_block (cmds, clean) m w = (Return (cmds', clean'), w') ->
  clean' `sublist_of` clean.
Proof.
  unfold extract_block, try_except, bind, lift, ret, print.
  destruct (json_loads (group1 m)) as [v|e].
  - intros [= _ <- _]. etransitivity; [apply strip_sublist|apply replace_sublist].
  - destruct (is_JSONDecodeError (exc_type e)); [|discriminate].
    intros [= _ <- _]. reflexivity.
Qed.

Lemma for_each_extract_block_sublist (ms : list Match) :
  forall (cmds : list json) (clean : str) (w : World)
         (cmds' : list json) (clean' : str) (w' : World),
    for_each ms extract_block (cmds, clean) w = (Return (cmds', clean'), w') ->
    clean' `sublist_of` clean.
Proof.
  induction ms as [|m ms IH]; intros cmds clean w cmds' clean' w' H.
  - cbn in H. injection H as _ <- _. reflexivity.
  - cbn [for_each] in H. unfold bind at 1 in H.
    destruct (extract_block (cmds, clean) m w) as [[[c1 t1]|e] w1] eqn:E; [|discriminate].
    apply extract_block_sublist in E. apply IH in H.
    etransitivity; [exact H | exact E].
Qed.

(** X3. The text returned for display is made of characters of the reply,
    in their order: the function only deletes. *)
Theorem extract_map_commands_only_deletes (text : str) (w : World)
  (clean : str) (commands : list json) (w' : World) :
  extract_map_commands text w = (Return (clean, commands), w') ->
  clean `sublist_of` text.
Proof.
  unfold extract_map_commands.
  destruct (finditer map_commands_pattern text) as [|m ms].
  - intros [= <- _ _]. reflexivity.
  - unfold bind.
    destruct (for_each (m :: ms) extract_block ([], text) w) as [[[c1 t1]|e] w1] eqn:E;
      [|discriminate].
    cbn [fst snd ret]. intros H. injection H as <- _ _.
    exact (for_each_extract_block_sublist _ _ _ _ _ _ _ E).
Qed.

End DisplayText.

(** ** What leaves the post-processor and the interactive handler *)

Section Escapes.

Import Interactive.

(** [json.loads] raises [JSONDecodeError], [ValueError] or
    [RecursionError], all of which derive from [Exception]. *)
Lemma json_loads_raises (s : str) (e : exn) :
  json_loads s = Raise e -> is_Exception (exc_type e) = true.
Proof.
  unfold json_loads.
  destruct (startswith [65279%N] s); [intros [= <-]; reflexivity|].
  destruct (skip_ws 0 s) as [i s1].
  destruct (scan_once (2 * length s + 2) i s1) as [v i2 s2|msg pos|n|].
  - destruct (skip_ws i2 s2) as [i3 [|c s3]]; [discriminate|].
    intros [= <-]; reflexivity.
  - intros [= <-]; reflexivity.
  - intros [= <-]; reflexivity.
  - intros [= <-]; reflexivity.
Qed.

(** One turn of the loop only prints; what it raises comes from
    [json.loads]. *)
Lemma extract_block_effect (st : list json * str) (m : Match) (w : World) :
  (exists lines : list str, snd (extract_block st m w) = with_stdout w lines)
  /\ (forall e : exn, fst (extract_block st m w) = Raise e ->
        is_Exception (exc_type e) = true).
Proof.
  destruct st as [cmds clean].
  unfold extract_block, try_except, bind, lift, ret, print.
  destruct (json_loads (group1 m)) as [v|e] eqn:E; cbn [fst snd].
  - split; [exists []; now rewrite with_stdout_nil | discriminate].
  - destruct (is_JSONDecodeError (exc_type e)); cbn [fst snd].
    + split; [eexists; reflexivity | discriminate].
    + split; [exists []; now rewrite with_stdout_nil|].
      intros e' [= <-]. exact (json_loads_raises _ _ E).
Qed.

Lemma for_each_extract_block_effect (ms : list Match) :
  forall (st : list json * str) (w : World),
    (exists lines : list str, snd (for_each ms extract_block st w) = with_stdout w lines)
    /\ (forall e : exn, fst (for_each ms extract_block st w) = Raise e ->
          is_Exception (exc_type e) = true).
Proof.
  induction ms as [|m ms IH]; intros st w.
  - cbn. split; [exists []; now rewrite with_stdout_nil | discriminate].
  - cbn [for_each]. unfold bind.
    destruct (extract_block_effect st m w) as [[l1 H1] H2].
    destruct (extract_block st m w) as [[st1|e1] w1]; cbn [fst snd] in *.
    + destruct (IH st1 w1) as [[l2 H3] H4]. split; [|exact H4].
      exists (l1 ++ l2). now rewrite H3, H1, with_stdout_app.
    + split; [now exists l1 | exact H2].
Qed.

(** [extract_map_commands] does nothing but print, and what it raises
    derives from [Exception]. *)
Lemma extract_map_commands_effect (text : str) (w : World) :
  (exists lines : list str, snd (extract_map_commands text w) = with_stdout w lines)
  /\ (forall e : exn, fst (extract_map_commands text w) = Raise e ->
        is_Exception (exc_type e) = true).
Proof.
  unfold extract_map_commands.
  destruct (finditer map_commands_pattern text) as [|m ms].
  - cbn. split; [exists []; now rewrite with_stdout_nil | discriminate].
  - unfold bind.
    destruct (for_each_extract_block_effect (m :: ms) ([], text) w) as [[l H1] H2].
    destruct (for_each (m :: ms) extract_block ([], text) w) as [[st|e] w1];
      cbn [fst snd] in *.
    + split; [now exists l | discriminate].
    + split; [now exists l|]. intros e' [= <-]. now apply H2.
Qed.

(** X4. [extract_map_commands] has no effect but printing: the environment,
    the files, the clock, the agent calls and the chat history are left as
    they were, and what was printed before stays. Every exception it raises
    derives from [Exception]. *)
Theorem extract_map_commands_only_prints (text : str) (w : World) :
  environ (snd (extract_map_commands text w)) = environ w
  /\ files (snd (extract_map_commands text w)) = files w
  /\ time_ms (snd (extract_map_commands text w)) = time_ms w
  /\ agent_calls (snd (extract_map_commands text w)) = agent_calls w
  /\ chatbot (snd (extract_map_commands text w)) = chatbot w
  /\ stdout w `prefix_of` stdout (snd (extract_map_commands text w))
  /\ (forall e : exn, fst (extract_map_commands text w) = Raise e ->
        is_Exception (exc_type e) = true).
Proof.
  destruct (extract_map_commands_effect text w) as [[lines ->] He].
  repeat split; try reflexivity; [|exact He].
  now exists lines.
Qed.

End Escapes.

(** ** The handlers of the interactive-map page *)

Section InteractiveHandlers.

Import Interactive.

Variable agent_run : list str -> str -> result str.
Variable float_repr : str -> str.
Variable script_dir : str.
Variable map_port : N.

(** The handler sends the message to the agent once and, beyond that, only
    prints. *)
Lemma chat_with_map_control_effect (message : str) (history : list chat_message) (w : World) :
  exists lines : list str,
    snd (chat_with_map_control agent_run float_repr message history w)
    = with_stdout (with_agent_call w message) lines.
Proof.
  unfold chat_with_map_control, try_except. unfold bind at 1. unfold await_agent_run.
  fold (with_agent_call w message).
  destruct (agent_run (agent_calls w) message) as [text|e].
  - unfold bind.
    destruct (extract_map_commands_effect text (with_agent_call w message)) as [[l Hl] _].
    destruct (extract_map_commands text (with_agent_call w message)) as [[[c m]|e] w1];
      cbn [fst snd] in *.
    + now exists l.
    + destruct (is_Exception (exc_type e)); now exists l.
  - exists []. rewrite with_stdout_nil. now destruct (is_Exception (exc_type e)).
Qed.

(** Unless the agent call raises a signal, the handler returns. *)
Lemma chat_with_map_control_no_signal (message : str) (history : list chat_message)
  (w : World) :
  no_signal (agent_run (agent_calls w) message) ->
  exists (reply commands_json : str) (w' : World),
    chat_with_map_control agent_run float_repr message history w
    = (Return (reply, commands_json), w').
Proof.
  intros H.
  unfold chat_with_map_control, try_except. unfold bind at 1. unfold await_agent_run.
  destruct (agent_run (agent_calls w) message) as [text|e]; cbn [no_signal] in H.
  - unfold bind.
    match goal with |- context [extract_map_commands text ?w1] =>
      destruct (extract_map_commands_effect text w1) as [_ He];
      destruct (extract_map_commands text w1) as [[[c m]|e] w2]; cbn [fst] in He
    end.
    + eexists _, _, _. reflexivity.
    + rewrite (He e eq_refl). eexists _, _, _. reflexivity.
  - rewrite H. eexists _, _, _. reflexivity.
Qed.

(** X5. Whatever the agent replies, and whenever its call raises an
    exception that derives from [Exception], the handler returns normally,
    having sent the message to the agent once and done nothing else but
    print: what [extract_map_commands] raises is caught as well. *)
Theorem chat_with_map_control_returns (message : str) (history : list chat_message)
  (w : World) :
  no_signal (agent_run (agent_calls w) message) ->
  exists (reply commands_json : str) (lines : list str),
    chat_with_map_control agent_run float_repr message history w
    = (Return (reply, commands_json), with_stdout (with_agent_call w message) lines).
Proof.
  intros H.
  destruct (chat_with_map_control_no_signal message history w H) as (reply & cj & w' & E).
  destruct (chat_with_map_control_effect message history w) as [lines Hl].
  rewrite E in Hl. cbn [snd] in Hl. subst w'.
  now exists reply, cj, lines.
Qed.





End InteractiveHandlers.

(** ** Start-up and the CrewAI chat *)

Section StartupOrder.

Import Interactive.


(** X8. In the CrewAI chat the token is read at every message, inside the
    guarded block: without it the reply is the apology with the text of the
    configuration error, and no crew is run. *)
Theorem crewai_chat_without_token (crew_kickoff : server_config -> list str -> str -> result str)
  (script_dir message : str) (history : list chat_message) (w : World) :
  falsy (environ w !! MAPBOX_ACCESS_TOKEN) = true ->
  CrewAIGradio.chat crew_kickoff script_dir message history w
  = (Return (py "Sorry, I encountered an error: "
             ++ py "MAPBOX_ACCESS_TOKEN environment variable is required. "
             ++ py "Get your token at https://account.mapbox.com/"), w).
Proof.
  intros H. unfold CrewAIGradio.chat, try_except. unfold bind at 1. unfold lift.
  unfold crewai_warsaw.get_mapbox_mcp_config, environ_get. now rewrite H.
Qed.

(** With the token, the crew is run once on the task that quotes the
    message, and an exception that derives from [Exception] becomes the
    reply. *)
Theorem crewai_chat_with_token (crew_kickoff : server_config -> list str -> str -> result str)
  (script_dir message : str) (history : list chat_message) (w : World) :
  falsy (environ w !! MAPBOX_ACCESS_TOKEN) = false ->
  agent_calls (snd (CrewAIGradio.chat crew_kickoff script_dir message history w))
  = agent_calls w ++ [py "The user asks: " ++ message ++ [LF] ++ [LF]
       ++ py "            Use the Mapbox tools to provide accurate, helpful information about Warsaw."
       ++ [LF] ++ py "            Be conversational and friendly in your response."].
Proof.
  intros H. unfold CrewAIGradio.chat, try_except. unfold bind at 1. unfold lift.
  unfold crewai_warsaw.get_mapbox_mcp_config, environ_get. rewrite H.
  unfold bind, CrewAIGradio.run_crew, ret.
  match goal with |- context [crew_kickoff ?c ?l ?d] => destruct (crew_kickoff c l d) as [r|e] end.
  - reflexivity.
  - destruct (is_Exception (exc_type e)); reflexivity.
Qed.

End StartupOrder.

(** ** The URL of a static map *)

Section ImageUrl.

Import LangGraphBlocks.

Lemma span_spec (p : N -> bool) (s : str) :
  s = fst (span p s) ++ snd (span p s)
  /\ forallb p (fst (span p s)) = true
  /\ (snd (span p s) = [] \/ exists c t, snd (span p s) = c :: t /\ p c = false).
Proof.
  induction s as [|c s (IH1 & IH2 & IH3)]; simpl.
  - repeat split. now left.
  - destruct (p c) eqn:Hc.
    + destruct (span p s) as [a b]. simpl in *. repeat split.
      * now f_equal.
      * now rewrite Hc.
      * exact IH3.
    + simpl. repeat split. right. now exists c, s.
Qed.

(** A greedy run whose continuation always succeeds takes every character
    it can. *)
Lemma greedy_longest (p : N -> bool) (k : cont) (s : str) :
  (forall i s g, k i s g <> None) ->
  forall (i : nat) (g : capture),
    greedy p i s g k = k (i + length (fst (span p s))) (snd (span p s)) g.
Proof.
  intros Hk. induction s as [|c s IH]; intros i g; simpl.
  - now rewrite Nat.add_0_r.
  - destruct (p c) eqn:Hc.
    + rewrite IH. destruct (span p s) as [a b]. simpl.
      rewrite Nat.add_succ_r.
      destruct (k (S (i + length a)) b g) eqn:E; [reflexivity|]. now apply Hk in E.
    + simpl. now rewrite Nat.add_0_r.
Qed.

(** The shape of a match of the URL pattern at the start of [s]. *)
Lemma match_at_url (i : nat) (s : str) (e : nat) (g : capture) :
  match_at url_pattern i s = Some (e, g) ->
  exists path rest : str,
    s = MAPBOX_URL ++ path ++ rest
    /\ path <> []
    /\ forallb url_char path = true
    /\ (rest = [] \/ exists c t, rest = c :: t /\ url_char c = false)
    /\ e = i + length (MAPBOX_URL ++ path).
Proof.
  unfold match_at, url_pattern. rewrite rmatch_cat, rmatch_lit. fold MAPBOX_URL.
  destruct (startswith MAPBOX_URL s) eqn:Hl; [|discriminate].
  apply startswith_inv in Hl. set (s1 := drop (length MAPBOX_URL) s) in *.
  change (Plus (fun c => negb (isspace c || (c =? 41)%N))) with (Plus url_char).
  cbn [rmatch].
  destruct s1 as [|x s2] eqn:Es1; [discriminate|].
  destruct (url_char x) eqn:Hx; [|discriminate].
  rewrite greedy_longest by (intros; discriminate).
  intros [= <- _].
  destruct (span_spec url_char s2) as (H1 & H2 & H3).
  exists (x :: fst (span url_char s2)), (snd (span url_char s2)).
  split; [|split; [discriminate|split; [|split; [exact H3|]]]].
  - rewrite Hl at 1. simpl. now rewrite <- H1.
  - simpl. now rewrite Hx, H2.
  - rewrite length_app. simpl. lia.
Qed.

Lemma search_sound (r : regex) (text : str) (m : Match) :
  search r text = Some m ->
  m_string m = text
  /\ match_at r (m_start m) (drop (m_start m) text) = Some (m_end m, m_group1 m).
Proof.
  unfold search, finditer. intros H.
  apply (finditer_scan_sound r text text 0 0 m eq_refl).
  destruct (finditer_scan r text 0 text 0) as [|x l]; [discriminate|].
  injection H as ->. apply list_elem_of_here.
Qed.

(** X9. The image URL the LangGraph handler returns, when there is one, is
    part of a message whose content is a string; it starts with the address
    of the Mapbox API, goes on with at least one character, holds no
    whitespace and no closing parenthesis after that address, and runs up to
    the end of the content or to the first such character. *)
Theorem find_image_url_shape (messages : list lc_message) (url : str) :
  find_image_url messages = Some url ->
  exists content before path after : str,
    mk_lc_message (StrContent content) ∈ messages
    /\ content = before ++ url ++ after
    /\ url = MAPBOX_URL ++ path
    /\ path <> []
    /\ Forall (fun c => isspace c = false /\ c <> 41%N) path
    /\ (after = [] \/ exists c t, after = c :: t /\ (isspace c = true \/ c = 41%N)).
Proof.
  induction messages as [|[mc] rest IH]; intros H; [discriminate|].
  cbn [find_image_url lc_content] in H.
  assert (Hrest : find_image_url rest = Some url ->
                  exists content before path after : str,
                    mk_lc_message (StrContent content) ∈ mk_lc_message mc :: rest
                    /\ content = before ++ url ++ after
                    /\ url = MAPBOX_URL ++ path
                    /\ path <> []
                    /\ Forall (fun c => isspace c = false /\ c <> 41%N) path
                    /\ (after = [] \/ exists c t, after = c :: t /\ (isspace c = true \/ c = 41%N))).
  { intros Hr. destruct (IH Hr) as (c & b & p & a & Hin & Hs).
    exists c, b, p, a. split; [now apply list_elem_of_further | exact Hs]. }
  destruct mc as [content|]; [|now apply Hrest].
  destruct (contains (py "api.mapbox.com") content); [|now apply Hrest].
  destruct (search url_pattern content) as [m|] eqn:E; [|now apply Hrest].
  injection H as <-.
  destruct (search_sound _ _ _ E) as [Hstr Hat].
  apply match_at_url in Hat as (path & after & Hd & Hne & Hp & Hafter & He).
  assert (Hlen : m_start m <= length content).
  { destruct (decide (m_start m <= length content)) as [|Hn]; [assumption|].
    rewrite drop_ge in Hd by lia. discriminate Hd. }
  assert (Hg0 : group0 m = MAPBOX_URL ++ path).
  { unfold group0, slice. rewrite Hstr, He.
    replace (m_start m + length (MAPBOX_URL ++ path) - m_start m)
      with (length (MAPBOX_URL ++ path)) by lia.
    rewrite Hd, app_assoc. now rewrite take_app_length. }
  exists content, (take (m_start m) content), path, after.
  split; [apply list_elem_of_here|]. split; [|split; [exact Hg0|split; [exact Hne|split]]].
  - rewrite Hg0. rewrite <- (take_drop (m_start m) content) at 1. f_equal.
    rewrite Hd. now rewrite <- app_assoc.
  - apply Forall_forall. intros c Hc. rewrite forallb_forall in Hp.
    apply list_elem_of_In, Hp in Hc. unfold url_char in Hc.
    apply negb_true_iff, orb_false_iff in Hc as [Hc1 Hc2].
    split; [exact Hc1|]. now apply N.eqb_neq.
  - destruct Hafter as [-> | (c & t & -> & Hc)]; [now left|].
    right. exists c, t. split; [reflexivity|].
    unfold url_char in Hc. apply negb_false_iff, orb_true_iff in Hc as [Hc | Hc].
    + now left.
    + right. now apply N.eqb_eq.
Qed.

End ImageUrl.

(** ** Instances *)

Section Instances.

Import Interactive LangGraphBlocks.

Lemma blocks_are_fenced_witness :
  mk_Match sample_reply 22 48 (Some (38, 44)) ∈ blocks sample_reply
  /\ exists before ws contents after : str,
       sample_reply = before ++ group0 (mk_Match sample_reply 22 48 (Some (38, 44))) ++ after
       /\ length before = 22
       /\ group0 (mk_Match sample_reply 22 48 (Some (38, 44)))
          = BLOCK_LABEL ++ ws ++ [LF] ++ contents ++ [LF] ++ py "```"
       /\ Forall (fun c => isspace c = true) ws
       /\ group1 (mk_Match sample_reply 22 48 (Some (38, 44))) = contents.
Proof.
  assert (H : mk_Match sample_reply 22 48 (Some (38, 44)) ∈ blocks sample_reply).
  { assert (E : blocks sample_reply = [mk_Match sample_reply 22 48 (Some (38, 44))])
      by (vm_compute; reflexivity).
    rewrite E. apply list_elem_of_here. }
  split; [exact H|].
  exact (blocks_are_fenced sample_reply _ H).
Defined.

Lemma extract_map_commands_only_deletes_witness :
  extract_map_commands sample_reply empty_world
  = (Return (py "Flying to the palace!" ++ [LF] ++ [LF] ++ py "Enjoy.", [JInt 1; JInt 2]),
     empty_world)
  /\ (py "Flying to the palace!" ++ [LF] ++ [LF] ++ py "Enjoy.") `sublist_of` sample_reply.
Proof.
  assert (H : extract_map_commands sample_reply empty_world
              = (Return (py "Flying to the palace!" ++ [LF] ++ [LF] ++ py "Enjoy.",
                         [JInt 1; JInt 2]), empty_world)) by (vm_compute; reflexivity).
  split; [exact H|].
  exact (extract_map_commands_only_deletes sample_reply empty_world _ _ _ H).
Defined.

Lemma extract_map_commands_only_prints_witness :
  fst (extract_map_commands (fenced_block (long_integer 4301)) empty_world)
  = Raise (mk_exn ValueError (int_too_long_str 4301))
  /\ is_Exception (exc_type (mk_exn ValueError (int_too_long_str 4301))) = true.
Proof.
  assert (H : fst (extract_map_commands (fenced_block (long_integer 4301)) empty_world)
              = Raise (mk_exn ValueError (int_too_long_str 4301))) by (vm_compute; reflexivity).
  split; [exact H|].
  destruct (extract_map_commands_only_prints (fenced_block (long_integer 4301)) empty_world)
    as (_ & _ & _ & _ & _ & _ & He).
  exact (He _ H).
Defined.

Lemma chat_with_map_control_returns_witness :
  no_signal ((fun _ _ => Return (fenced_block (long_integer 4301)))
               (agent_calls empty_world) (py "hi") : result str)
  /\ exists (reply commands_json : str) (lines : list str),
       chat_with_map_control (fun _ _ => Return (fenced_block (long_integer 4301)))
         (fun l => l) (py "hi") [] empty_world
       = (Return (reply, commands_json),
          with_stdout (with_agent_call empty_world (py "hi")) lines).
Proof.
  split; [exact I|].
  exact (chat_with_map_control_returns
           (fun _ _ => Return (fenced_block (long_integer 4301))) (fun l => l)
           (py "hi") [] empty_world I).
Defined.

(** The reply to an over-long integer in a block. *)
Example chat_with_map_control_long_integer :
  fst (chat_with_map_control (fun _ _ => Return (fenced_block (long_integer 4301)))
         (fun l => l) (py "hi") [] empty_world)
  = Return (py "Sorry, I encountered an error: " ++ int_too_long_str 4301, []).
Proof. vm_compute. reflexivity. Qed.



(** The same call, evaluated: the map template is missing, the handler
    raises, and the chat history holds the two entries all the same. *)
Example respond_without_template :
  exc_type <$> (match fst (respond (raising (mk_exn ValueError (py "no key"))) (fun l => l)
                             (py "/app") 8000%N (py "hi") world_without_template) with
                | Raise e => Some e
                | Return _ => None
                end) = Some FileNotFoundError
  /\ chatbot (snd (respond (raising (mk_exn ValueError (py "no key"))) (fun l => l)
                     (py "/app") 8000%N (py "hi") world_without_template))
     = [mk_chat_message (py "user") (py "hi");
        mk_chat_message (py "assistant") (py "Sorry, I encountered an error: no key")].
Proof. split; vm_compute; reflexivity. Qed.


Lemma crewai_chat_without_token_witness :
  falsy (environ empty_world !! MAPBOX_ACCESS_TOKEN) = true
  /\ CrewAIGradio.chat (fun _ _ _ => Return (py "unused")) (py "/app") (py "hi") []
       empty_world
     = (Return (py "Sorry, I encountered an error: "
                ++ py "MAPBOX_ACCESS_TOKEN environment variable is required. "
                ++ py "Get your token at https://account.mapbox.com/"), empty_world).
Proof.
  split; [reflexivity|].
  exact (crewai_chat_without_token (fun _ _ _ => Return (py "unused")) (py "/app") (py "hi") []
           empty_world eq_refl).
Defined.

Lemma find_image_url_shape_witness :
  find_image_url
    [mk_lc_message BlockContent;
     mk_lc_message (StrContent (py "Map: (https://api.mapbox.com/styles/v1/x.png) done"))]
  = Some (py "https://api.mapbox.com/styles/v1/x.png")
  /\ exists content before path after : str,
       mk_lc_message (StrContent content)
       ∈ [mk_lc_message BlockContent;
          mk_lc_message (StrContent (py "Map: (https://api.mapbox.com/styles/v1/x.png) done"))]
       /\ content = before ++ py "https://api.mapbox.com/styles/v1/x.png" ++ after
       /\ py "https://api.mapbox.com/styles/v1/x.png" = MAPBOX_URL ++ path
       /\ path <> []
       /\ Forall (fun c => isspace c = false /\ c <> 41%N) path
       /\ (after = [] \/ exists c t, after = c :: t /\ (isspace c = true \/ c = 41%N)).
Proof.
  assert (H : find_image_url
                [mk_lc_message BlockContent;
                 mk_lc_message
                   (StrContent (py "Map: (https://api.mapbox.com/styles/v1/x.png) done"))]
              = Some (py "https://api.mapbox.com/styles/v1/x.png"))
    by (vm_compute; reflexivity).
  split; [exact H|].
  exact (find_image_url_shape _ _ H).
Defined.

End Instances.
